(** * A shallow embedding of the task-manager backend (server.ts)

    The server is an Express application over one SQLite database with two
    tables, [users] and [tasks].  Every route handler is a short sequence of
    SQL statements, so the embedding has three layers:

    - [JS]: the handful of JavaScript string idioms the handlers rely on
      (truthiness, [a || b], [startsWith], [substring], [includes]);
    - [User], [Task], [store] and [Sql]: the two tables as lists of rows in
      rowid order, with the constraints the [CREATE TABLE] statements
      declare, and the SQL statements of the handlers as list functions;
    - the [Server] section: the [authenticate] middleware and the route
      handlers, as functions from a request and a store to an outcome and a
      new store.  bcryptjs and jsonwebtoken are section variables; their
      contracts are section hypotheses used only by the results that need
      them.

    Strings are byte strings: SQLite stores TEXT as UTF-8 and compares it
    with [memcmp] (the BINARY collation), which is [String.compare].  A
    request body field is an [option string]: [None] stands for a field that
    is absent or [null] (both are bound as SQL NULL), [Some s] for the
    string [s].  The fields of the body of [POST /api/tasks] go to the
    INSERT as they come, and there an array counts for as many parameters as
    it has elements; these fields are [JS.value]s, a string, nothing, or an
    array of strings and [null]s. *)

From Stdlib Require Import String Ascii List ZArith Bool Lia.
From Stdlib Require Import Permutation Sorted OrderedTypeEx.
Import ListNotations.

Local Open Scope string_scope.
Local Open Scope Z_scope.

(* ================================================================= *)
(** ** JavaScript idioms *)

Module JS.

(** [!!s] for a string: only the empty string is falsy. *)
Definition truthy (s : string) : bool := negb (s =? "")%string.

(** [!v] for a value that is a string, [undefined] or [null]. *)
Definition falsy (v : option string) : bool :=
  match v with
  | Some s => negb (truthy s)
  | None => true
  end.

(** [v || d]. *)
Definition or_default (v : option string) (d : string) : string :=
  match v with
  | Some s => if truthy s then s else d
  | None => d
  end.

(** [s.startsWith(p)]. *)
Definition startsWith (p s : string) : bool := String.prefix p s.

(** [s.substring(n)]: the characters of [s] from position [n] on. *)
Definition substring_from (n : nat) (s : string) : string :=
  String.substring n (String.length s - n) s.

(** [s.includes(p)]. *)
Definition includes (p s : string) : bool :=
  match String.index 0 p s with
  | Some _ => true
  | None => false
  end.

(** A field of a JSON body that a handler passes on without looking at
    its type: a string, [undefined] or [null], or an array of strings and
    [null]s. *)
Inductive value : Type :=
| Scalar (v : option string)
| Array (elements : list (option string)).

(** [v || d] for such a field: an array is truthy, also the empty one. *)
Definition or_value (v : value) (d : string) : value :=
  match v with
  | Scalar o => Scalar (Some (or_default o d))
  | Array elements => Array elements
  end.

End JS.

(* ================================================================= *)
(** ** Errors and responses *)

(** A thrown JavaScript [Error]; only its [message] is ever inspected. *)
Record exn : Type := Error { message : string }.

(** The value of a statement that may throw. *)
Inductive result (A : Type) : Type :=
| Ok (a : A)
| Throw (e : exn).
Arguments Ok {A} a.
Arguments Throw {A} e.

(* ================================================================= *)
(** ** The two tables *)

Module User.

(** A row of [users].  [id] is bound by the only INSERT to a string and
    [email], [password] are NOT NULL; the other columns are nullable. *)
Record row : Type := Row {
  id : string;
  email : string;
  password : string;
  name : option string;
  isPremium : Z;
  brandName : option string;
  logoUrl : option string;
  primaryColor : option string;
  customDomain : option string
}.

End User.

Module Task.

(** A row of [tasks].  [id] is TEXT PRIMARY KEY of a rowid table, which
    SQLite lets be NULL; [text] is NOT NULL; [completed] is an INTEGER;
    every other column is a TEXT column that can hold NULL, [userId]
    included: the foreign key on it does not check a NULL. *)
Record row : Type := Row {
  id : option string;
  userId : option string;
  text : string;
  completed : Z;
  priority : option string;
  dueDate : option string;
  googleEventId : option string;
  reminderType : option string;
  reminderTiming : option string;
  contactInfo : option string
}.

(** [SET completed = c]. *)
Definition set_completed (c : Z) (r : row) : row :=
  Row (id r) (userId r) (text r) c (priority r) (dueDate r)
      (googleEventId r) (reminderType r) (reminderTiming r) (contactInfo r).

(** An element of the array [GET /api/tasks] answers with:
    [{ ...t, completed: !!t.completed }]. *)
Record json : Type := Json {
  j_id : option string;
  j_userId : option string;
  j_text : string;
  j_completed : bool;
  j_priority : option string;
  j_dueDate : option string;
  j_googleEventId : option string;
  j_reminderType : option string;
  j_reminderTiming : option string;
  j_contactInfo : option string
}.

Definition to_json (r : row) : json :=
  Json (id r) (userId r) (text r) (negb (completed r =? 0)) (priority r)
       (dueDate r) (googleEventId r) (reminderType r) (reminderTiming r)
       (contactInfo r).

End Task.

(** The database: both tables, rows in rowid (insertion) order. *)
Record store : Type := Store {
  users : list User.row;
  tasks : list Task.row
}.

Definition with_tasks (st : store) (ts : list Task.row) : store :=
  Store (users st) ts.

Definition with_users (st : store) (us : list User.row) : store :=
  Store us (tasks st).

(* ================================================================= *)
(** ** SQL *)

Module Sql.

(** [col = ?] in a WHERE clause, for a nullable TEXT column: a NULL
    column never compares equal. *)
Definition eq_text (col : option string) (v : string) : bool :=
  match col with
  | Some s => (s =? v)%string
  | None => false
  end.

(** The values one argument of [.run(...)] gives to the positional
    parameters of a statement: a string, [undefined] or [null] gives one, an
    array gives its elements one after the other, the empty array none. *)
Definition spread (arg : JS.value) : list (option string) :=
  match arg with
  | JS.Scalar v => [v]
  | JS.Array elements => elements
  end.

(** The values the arguments of [.run(...)] give, in order. *)
Definition parameters (args : list JS.value) : list (option string) :=
  flat_map spread args.

(** The order of [ORDER BY col ASC] on a nullable TEXT column: NULL sorts
    before every value, two values compare bytewise. *)
Definition leb_text (a b : option string) : bool :=
  match a, b with
  | None, _ => true
  | Some _, None => false
  | Some x, Some y => String.leb x y
  end.

Section OrderBy.
Context {A : Type} (key : A -> option string).

Fixpoint insert (x : A) (l : list A) : list A :=
  match l with
  | [] => [x]
  | y :: l' =>
      if leb_text (key x) (key y) then x :: y :: l'
      else y :: insert x l'
  end.

(** [ORDER BY key ASC], as an insertion sort.  It keeps rows with equal
    keys in rowid order, which SQLite does not promise; the results below
    use only that the outcome is a sorted permutation. *)
Fixpoint order_by (l : list A) : list A :=
  match l with
  | [] => []
  | x :: l' => insert x (order_by l')
  end.

(** [x] may stand before [y] in the result of [ORDER BY key ASC]. *)
Definition before (x y : A) : Prop := leb_text (key x) (key y) = true.

End OrderBy.

End Sql.

(* ================================================================= *)
(** ** Due dates as moments

    What "ordered by due date" asks for, stated apart from the SQL: a due
    date as the [datetime-local] field of the form writes it,
    [YYYY-MM-DDTHH:mm] with a year of four digits or more, read as a moment
    of the calendar. *)

Module Due.

Inductive digit : Type := D0 | D1 | D2 | D3 | D4 | D5 | D6 | D7 | D8 | D9.

Definition char_of (d : digit) : ascii :=
  match d with
  | D0 => "0" | D1 => "1" | D2 => "2" | D3 => "3" | D4 => "4"
  | D5 => "5" | D6 => "6" | D7 => "7" | D8 => "8" | D9 => "9"
  end%char.

Definition value (d : digit) : Z :=
  match d with
  | D0 => 0 | D1 => 1 | D2 => 2 | D3 => 3 | D4 => 4
  | D5 => 5 | D6 => 6 | D7 => 7 | D8 => 8 | D9 => 9
  end.

Fixpoint chars (ds : list digit) : string :=
  match ds with
  | [] => ""
  | d :: ds' => String (char_of d) (chars ds')
  end.

(** The number a row of digits writes. *)
Definition number (ds : list digit) : Z :=
  fold_left (fun n d => 10 * n + value d) ds 0.

Record datetime : Type := DateTime {
  year : list digit;
  month : digit * digit;
  day : digit * digit;
  hour : digit * digit;
  minute : digit * digit
}.

Definition two (p : digit * digit) : string :=
  String (char_of (fst p)) (String (char_of (snd p)) "").

Definition two_value (p : digit * digit) : Z :=
  10 * value (fst p) + value (snd p).

(** The text of a moment. *)
Definition print (t : datetime) : string :=
  chars (year t) ++ "-" ++ two (month t) ++ "-" ++ two (day t) ++ "T"
  ++ two (hour t) ++ ":" ++ two (minute t).

(** The place of a moment in time: year, month, day, hour and minute read
    as one number; a later moment has the greater one. *)
Definition rank (t : datetime) : Z :=
  (((number (year t) * 100 + two_value (month t)) * 100 + two_value (day t))
   * 100 + two_value (hour t)) * 100 + two_value (minute t).

(** A due date the form writes for a year up to 9999, or none. *)
Definition local (d : option string) : Prop :=
  match d with
  | None => True
  | Some x => exists t, x = print t /\ length (year t) = 4%nat
  end.

(** Ascending due dates, no due date first: the first is none, or both
    are moments and the first is not the later one. *)
Definition ascending (a b : option string) : Prop :=
  match a, b with
  | None, _ => True
  | Some _, None => False
  | Some x, Some y =>
      exists tx ty, x = print tx /\ y = print ty /\ rank tx <= rank ty
  end.

(** Ascending texts, NULL first: the first is NULL, or both are texts and
    the first is the second or stands before it in the order of the dictionary
    on byte values. *)
Definition text_ascending (a b : option string) : Prop :=
  match a, b with
  | None, _ => True
  | Some _, None => False
  | Some x, Some y => x = y \/ String_as_OT.lt x y
  end.

End Due.

(** [WHERE id = ? AND userId = ?] on [tasks]. *)
Definition owned_by (id uid : string) (r : Task.row) : bool :=
  Sql.eq_text (Task.id r) id && Sql.eq_text (Task.userId r) uid.

(** [SELECT * FROM tasks WHERE userId = ? ORDER BY dueDate ASC]. *)
Definition select_tasks (uid : string) (st : store) : list Task.row :=
  Sql.order_by Task.dueDate
    (filter (fun r => Sql.eq_text (Task.userId r) uid) (tasks st)).

(** [UPDATE tasks SET completed = ? WHERE id = ? AND userId = ?]. *)
Definition update_completed (c : Z) (id uid : string) (st : store) : store :=
  with_tasks st
    (map (fun r => if owned_by id uid r then Task.set_completed c r else r)
         (tasks st)).

(** [DELETE FROM tasks WHERE id = ? AND userId = ?]. *)
Definition delete_from_tasks (id uid : string) (st : store) : store :=
  with_tasks st (filter (fun r => negb (owned_by id uid r)) (tasks st)).

(** The nine parameters of the INSERT of [POST /api/tasks], as bound. *)
Record task_params : Type := TaskParams {
  p_id : option string;
  p_userId : option string;
  p_text : option string;
  p_priority : option string;
  p_dueDate : option string;
  p_googleEventId : option string;
  p_reminderType : option string;
  p_reminderTiming : option string;
  p_contactInfo : option string
}.

(** [.run(...)] on a statement with nine positional parameters: the
    values the arguments give are bound in order, and their number must be
    nine. *)
Definition bind_task_params (args : list JS.value) : result task_params :=
  match Sql.parameters args with
  | [id; userId; text; priority; dueDate; googleEventId; reminderType;
     reminderTiming; contactInfo] =>
      Ok (TaskParams id userId text priority dueDate googleEventId
            reminderType reminderTiming contactInfo)
  | vs =>
      if (length vs <? 9)%nat
      then Throw (Error "Too few parameter values were provided")
      else Throw (Error "Too many parameter values were provided")
  end.

(** Does a row of [tasks] already carry this primary key?  NULL keys are
    all distinct. *)
Definition task_id_taken (id : option string) (st : store) : bool :=
  match id with
  | Some i => existsb (fun r => Sql.eq_text (Task.id r) i) (tasks st)
  | None => false
  end.

(** Is [uid] the id of a row of [users] (the parent key of
    [FOREIGN KEY(userId) REFERENCES users(id)])? *)
Definition user_exists (uid : string) (st : store) : bool :=
  existsb (fun u => (User.id u =? uid)%string) (users st).

(** Does the foreign key refuse this [userId]?  It does when no row of
    [users] has it for id; a NULL is not checked. *)
Definition owner_missing (userId : option string) (st : store) : bool :=
  match userId with
  | Some uid => negb (user_exists uid st)
  | None => false
  end.

(** [INSERT INTO tasks (id, userId, text, priority, dueDate, googleEventId,
    reminderType, reminderTiming, contactInfo) VALUES (...)].  [completed]
    takes its DEFAULT 0.  The statement fails on [text] NULL, on a primary
    key already present and on a [userId] without a parent row. *)
Definition insert_into_tasks (p : task_params) (st : store) : result store :=
  match p_text p with
  | None => Throw (Error "NOT NULL constraint failed: tasks.text")
  | Some txt =>
      if task_id_taken (p_id p) st then
        Throw (Error "UNIQUE constraint failed: tasks.id")
      else if owner_missing (p_userId p) st then
        Throw (Error "FOREIGN KEY constraint failed")
      else
        Ok (with_tasks st
              (tasks st ++
               [Task.Row (p_id p) (p_userId p) txt 0 (p_priority p)
                  (p_dueDate p) (p_googleEventId p) (p_reminderType p)
                  (p_reminderTiming p) (p_contactInfo p)]))
  end.

(** Is a row of [users] already using this id, this email? *)
Definition user_id_taken (id : string) (st : store) : bool :=
  existsb (fun u => (User.id u =? id)%string) (users st).

Definition email_taken (email : string) (st : store) : bool :=
  existsb (fun u => (User.email u =? email)%string) (users st).

(** [INSERT INTO users (id, name, email, password) VALUES (?, ?, ?, ?)];
    the remaining columns take their defaults.  [id] is the primary key and
    [email] is UNIQUE; SQLite reports either violation as a UNIQUE
    constraint failure. *)
Definition insert_into_users (id name email password : string) (st : store)
  : result store :=
  if user_id_taken id st then
    Throw (Error "UNIQUE constraint failed: users.id")
  else if email_taken email st then
    Throw (Error "UNIQUE constraint failed: users.email")
  else
    Ok (with_users st
          (users st ++
           [User.Row id email password (Some name) 0 None None
              (Some "#059669") None])).

(** [SELECT * FROM users WHERE email = ?] with [.get]: the first match; a
    NULL parameter matches no row. *)
Definition select_user_by_email (email : option string) (st : store)
  : option User.row :=
  match email with
  | Some e => find (fun u => (User.email u =? e)%string) (users st)
  | None => None
  end.

(** The body of [PUT /api/user/branding]. *)
Record branding_body : Type := BrandingBody {
  b_brandName : option string;
  b_logoUrl : option string;
  b_primaryColor : option string;
  b_customDomain : option string
}.

(** [SELECT isPremium FROM users WHERE id = ?] with [.get], then
    [user?.isPremium] as a condition. *)
Definition is_premium (uid : string) (st : store) : bool :=
  match find (fun u => (User.id u =? uid)%string) (users st) with
  | Some u => negb (User.isPremium u =? 0)
  | None => false
  end.

(** [UPDATE users SET brandName = ?, logoUrl = ?, primaryColor = ?,
    customDomain = ? WHERE id = ?]. *)
Definition update_branding (b : branding_body) (uid : string) (st : store)
  : store :=
  with_users st
    (map (fun u =>
            if (User.id u =? uid)%string then
              User.Row (User.id u) (User.email u) (User.password u)
                (User.name u) (User.isPremium u) (b_brandName b)
                (b_logoUrl b) (b_primaryColor b) (b_customDomain b)
            else u)
         (users st)).

(** [UPDATE users SET isPremium = 1 WHERE id = ?]. *)
Definition update_premium (uid : string) (st : store) : store :=
  with_users st
    (map (fun u =>
            if (User.id u =? uid)%string then
              User.Row (User.id u) (User.email u) (User.password u)
                (User.name u) 1 (User.brandName u) (User.logoUrl u)
                (User.primaryColor u) (User.customDomain u)
            else u)
         (users st)).

(* ================================================================= *)
(** ** Requests and responses *)

(** What a handler reads of a request besides its body: the
    [Authorization] header and [req.session?.token]. *)
Record request : Type := Request {
  authorization : option string;
  session_token : option string
}.

(** *** Header values as they arrive

    Node's HTTP parser hands a header value over without the spaces and
    tabs around it, so [req.headers.authorization] never starts or ends
    with one. *)

Module Http.

(** A space or a horizontal tab. *)
Definition ows (c : ascii) : bool :=
  ((c =? " ") || (c =? "009"))%char.

Fixpoint last_char (s : string) : option ascii :=
  match s with
  | EmptyString => None
  | String c EmptyString => Some c
  | String _ s' => last_char s'
  end.

(** No space or tab at either end. *)
Definition trimmed (s : string) : bool :=
  match s with
  | EmptyString => true
  | String c _ =>
      negb (ows c)
      && match last_char s with
         | Some d => negb (ows d)
         | None => true
         end
  end.

(** A request as the server can receive it. *)
Definition received (req : request) : bool :=
  match authorization req with
  | Some authHeader => trimmed authHeader
  | None => true
  end.

End Http.

(** The JSON bodies the modelled handlers send. *)
Inductive body : Type :=
| ErrorBody (error : string)                 (* { error } *)
| SuccessBody                                (* { success: true } *)
| AuthBody (userId token : string)           (* { success: true, userId, token } *)
| TasksBody (ts : list Task.json).           (* [ ...tasks ] *)

(** How a handler ends: it sends a response, or an error leaves it. *)
Inductive outcome : Type :=
| Responded (status : Z) (b : body)
| Uncaught (e : exn).

(** A handler's effect: its outcome, the store and the session token
    afterwards. *)
Record reply : Type := Reply {
  outcome_of : outcome;
  store_of : store;
  session_of : option string
}.

(** The body of [POST /api/tasks], as the handler destructures it: the
    eight fields, each as the JSON gave it. *)
Record raw_body : Type := RawBody {
  r_id : JS.value;
  r_text : JS.value;
  r_priority : JS.value;
  r_dueDate : JS.value;
  r_googleEventId : JS.value;
  r_reminderType : JS.value;
  r_reminderTiming : JS.value;
  r_contactInfo : JS.value
}.

(** A body of [POST /api/tasks] whose fields are strings, absent or
    [null], as the client sends it. *)
Record task_body : Type := TaskBody {
  b_id : option string;
  b_text : option string;
  b_priority : option string;
  b_dueDate : option string;
  b_googleEventId : option string;
  b_reminderType : option string;
  b_reminderTiming : option string;
  b_contactInfo : option string
}.

(** Such a body as the handler gets it: no field is an array. *)
Definition scalar_body (b : task_body) : raw_body :=
  RawBody (JS.Scalar (b_id b)) (JS.Scalar (b_text b))
    (JS.Scalar (b_priority b)) (JS.Scalar (b_dueDate b))
    (JS.Scalar (b_googleEventId b)) (JS.Scalar (b_reminderType b))
    (JS.Scalar (b_reminderTiming b)) (JS.Scalar (b_contactInfo b)).

(** What a handler draws from its environment: the string made from
    [Math.random()], the salt bcrypt generates and the clock that stamps
    the token. *)
Record env : Type := Env {
  rand_id : string;
  salt : string;
  iat : Z
}.

(** The string a truthy field holds. *)
Definition string_of (v : option string) : string :=
  match v with
  | Some s => s
  | None => ""
  end.

(** The result of [authenticate]: [next()] with [req.userId] set, or a
    response. *)
Inductive auth : Type :=
| Authenticated (userId : string)
| Rejected (status : Z) (b : body).

(* ================================================================= *)
(** ** A small instance

    A transparent stand-in for the two libraries and a store with two users
    and three tasks, on which the handlers can be run. *)

Module Demo.

Definition bcrypt_hash (password salt : string) : string :=
  "$2a$10$" ++ salt ++ password.

Definition bcrypt_compare (password hashed : string) : bool :=
  match hashed with
  | String "$" (String "2" (String "a" (String "$" (String "1"
      (String "0" (String "$" rest)))))) =>
      (JS.substring_from (String.length rest - String.length password) rest
       =? password)%string
  | _ => false
  end.

Definition jwt_sign (userId : string) (iat : Z) : string :=
  "jwt." ++ userId.

Definition jwt_verify (token : string) : option string :=
  match token with
  | String "j" (String "w" (String "t" (String "." userId))) => Some userId
  | _ => None
  end.

Definition ana : User.row :=
  User.Row "u1" "ana@x.com" (bcrypt_hash "secret" "salt1") (Some "Ana") 0
    None None (Some "#059669") None.

Definition bia : User.row :=
  User.Row "u2" "bia@x.com" (bcrypt_hash "hunter2" "salt2") (Some "Bia") 0
    None None (Some "#059669") None.

Definition t1 : Task.row :=
  Task.Row (Some "t1") (Some "u1") "write report" 0 (Some "high")
    (Some "2024-05-02T09:00") None (Some "none") (Some "1h") (Some "").

Definition t2 : Task.row :=
  Task.Row (Some "t2") (Some "u2") "buy milk" 1 (Some "low")
    (Some "2024-05-01T18:00") None (Some "email") (Some "24h")
    (Some "bia@x.com").

Definition t3 : Task.row :=
  Task.Row (Some "t3") (Some "u1") "call Rui" 0 (Some "medium") None None
    (Some "none") (Some "1h") (Some "").

Definition st0 : store := Store [ana; bia] [t1; t2; t3].

(** A task of Ana due in the year 10000, the moments of her two due dates,
    and a store with both tasks. *)
Definition capsule : Task.row :=
  Task.Row (Some "t8") (Some "u1") "open the time capsule" 0 (Some "low")
    (Some "10000-01-01T00:00") None (Some "none") (Some "1h") (Some "").

Definition late : Due.datetime :=
  Due.DateTime [Due.D1; Due.D0; Due.D0; Due.D0; Due.D0] (Due.D0, Due.D1)
    (Due.D0, Due.D1) (Due.D0, Due.D0) (Due.D0, Due.D0).

Definition soon : Due.datetime :=
  Due.DateTime [Due.D2; Due.D0; Due.D2; Due.D4] (Due.D0, Due.D5)
    (Due.D0, Due.D2) (Due.D0, Due.D9) (Due.D0, Due.D0).

Definition st_far : store := Store [ana; bia] [t1; t2; capsule].

(** Requests carrying a bearer token of each user, and one as the client
    sends it without a token: an empty header, no session token. *)
Definition as_ana : request := Request (Some "Bearer jwt.u1") None.
Definition as_bia : request := Request (Some "Bearer jwt.u2") None.
Definition anonymous : request := Request (Some "") None.

Definition env0 : env := Env "u3" "salt3" 1700000000.

End Demo.

(* ================================================================= *)
(** ** The client

    The functions of the React component that compute on the task list: the
    order of display, the reminder check, the body a submitted form sends
    and the local updates after a toggle or a delete.  What React and the browser do around them (state, timers,
    [fetch], [Date]) enters as arguments. *)

Module Client.

(** A [Todo] of the component's state: an element of the array
    [GET /api/tasks] answered, or the object [addTodo] built.  The
    component never reads [userId]. *)
Record todo : Type := Todo {
  id : option string;
  text : string;
  completed : bool;
  priority : option string;
  dueDate : option string;
  googleEventId : option string;
  reminderType : option string;
  reminderTiming : option string;
  contactInfo : option string
}.

(** [setTodos(data)] in [fetchTasks]. *)
Definition of_json (j : Task.json) : todo :=
  Todo (Task.j_id j) (Task.j_text j) (Task.j_completed j) (Task.j_priority j)
    (Task.j_dueDate j) (Task.j_googleEventId j) (Task.j_reminderType j)
    (Task.j_reminderTiming j) (Task.j_contactInfo j).

(** Two ids are the same value for [===], and the same element of a
    [Set]: [null] is [null], a string is an equal string. *)
Definition same_id (a b : option string) : bool :=
  match a, b with
  | Some x, Some y => (x =? y)%string
  | None, None => true
  | _, _ => false
  end.

(** [t.id === id], for the [todo.id] the list hands to [toggleTodo] and
    [deleteTodo]: a string, or [null] for a row stored without an id. *)
Definition has_id (id' : option string) (t : todo) : bool :=
  same_id (id t) id'.

(** The id as the template [`/api/tasks/${id}`] writes it into the path. *)
Definition param_of (id' : option string) : string :=
  match id' with
  | Some s => s
  | None => "null"
  end.

(** A letter or a digit; an id of these, as [addTodo] generates them,
    reaches [req.params.id] as it is. *)
Definition alphanumeric (c : ascii) : bool :=
  let n := nat_of_ascii c in
  ((48 <=? n) && (n <=? 57) || (65 <=? n) && (n <=? 90)
   || (97 <=? n) && (n <=? 122))%nat.

Fixpoint plain (s : string) : bool :=
  match s with
  | EmptyString => true
  | String c s' => alphanumeric c && plain s'
  end.

(** [{ ...t, completed: c }]. *)
Definition set_completed (c : bool) (t : todo) : todo :=
  Todo (id t) (text t) c (priority t) (dueDate t) (googleEventId t)
    (reminderType t) (reminderTiming t) (contactInfo t).

(** *** [sortedTodos] *)

(** [priorityMap[p]], [None] for [undefined]. *)
Definition priorityMap (p : option string) : option Z :=
  match p with
  | Some s =>
      if (s =? "high")%string then Some 0
      else if (s =? "medium")%string then Some 1
      else if (s =? "low")%string then Some 2
      else None
  | None => None
  end.

(** The comparator of [sortedTodos]; [None] is NaN. *)
Definition compareTodos (a b : todo) : option Z :=
  if negb (Bool.eqb (completed a) (completed b)) then
    Some (if completed a then 1 else -1)
  else
    match priorityMap (priority a), priorityMap (priority b) with
    | Some x, Some y => Some (x - y)
    | _, _ => None
    end.

(** [a] may stay before [b]: the comparator is not positive (NaN counts
    as 0). *)
Definition stays_before (a b : todo) : bool :=
  match compareTodos a b with
  | Some v => v <=? 0
  | None => true
  end.

Fixpoint sort_insert (a : todo) (l : list todo) : list todo :=
  match l with
  | [] => [a]
  | b :: l' => if stays_before a b then a :: b :: l' else b :: sort_insert a l'
  end.

(** [[...todos].sort(compareTodos)]: [Array.prototype.sort] is stable, and
    on a consistent comparator its result is the one of this insertion
    sort. *)
Fixpoint sortedTodos (todos : list todo) : list todo :=
  match todos with
  | [] => []
  | a :: l => sort_insert a (sortedTodos l)
  end.

(** The order the list is shown in: the open todos first, and among todos
    of one completion the higher priority first. *)
Definition shown_before (a b : todo) : Prop :=
  (completed a = false /\ completed b = true) \/
  (completed a = completed b /\
   exists x y, priorityMap (priority a) = Some x /\
               priorityMap (priority b) = Some y /\ x <= y).

(** The todos of completion [c] and priority rank [x]. *)
Definition in_group (c : bool) (x : Z) (t : todo) : bool :=
  Bool.eqb (completed t) c
  && match priorityMap (priority t) with
     | Some y => y =? x
     | None => false
     end.

(** *** [toggleTodo], [deleteTodo] *)

(** The [completed] that [toggleTodo] sends, [None] when it returns without
    a request. *)
Definition toggleTodo_completed (id' : option string) (todos : list todo)
  : option bool :=
  match find (has_id id') todos with
  | Some t => Some (negb (completed t))
  | None => None
  end.

(** The state [toggleTodo] sets when the response is ok. *)
Definition toggleTodo_state (id' : option string) (todos : list todo)
  : list todo :=
  map (fun t => if has_id id' t then set_completed (negb (completed t)) t
                else t)
      todos.

(** The state [deleteTodo] sets when the response is ok. *)
Definition deleteTodo_state (id' : option string) (todos : list todo)
  : list todo :=
  filter (fun t => negb (has_id id' t)) todos.

(** *** [addTodo] *)

(** The form fields [addTodo] reads, with the id it generated and the
    [googleEventId] the calendar request gave, if any. *)
Record form : Type := Form {
  f_id : string;
  f_newTodo : string;
  f_priority : string;
  f_dueDate : string;
  f_googleEventId : option string;
  f_reminderType : string;
  f_reminderTiming : string;
  f_contactInfo : string
}.

(** The object [addTodo] builds. *)
Definition todo_of_form (f : form) : todo :=
  Todo (Some (f_id f)) (f_newTodo f) false (Some (f_priority f))
    (if JS.truthy (f_dueDate f) then Some (f_dueDate f) else None)
    (f_googleEventId f) (Some (f_reminderType f)) (Some (f_reminderTiming f))
    (if negb (f_reminderType f =? "none")%string
     then Some (f_contactInfo f) else None).

(** [JSON.stringify(todo)] as the server destructures it: an [undefined]
    field is dropped, [completed] is not read. *)
Definition body_of_todo (t : todo) : task_body :=
  TaskBody (id t) (Some (text t)) (priority t) (dueDate t) (googleEventId t)
    (reminderType t) (reminderTiming t) (contactInfo t).

(** *** [checkUpcomingTasks] *)

(** [notifiedTasks.has(x)], the set as the list of its elements. *)
Definition has (notifiedTasks : list (option string)) (x : option string)
  : bool :=
  existsb (same_id x) notifiedTasks.

(** [new Set(prev).add(x)]. *)
Definition add (prev : list (option string)) (x : option string)
  : list (option string) :=
  if has prev x then prev else (prev ++ [x])%list.

(** Does the pass at time [now] (milliseconds) notify [t]?  [parse] is
    [new Date(s).getTime()], [None] for an invalid date. *)
Definition notifies (parse : string -> option Z) (now : Z)
  (notifiedTasks : list (option string)) (t : todo) : bool :=
  if completed t || JS.falsy (dueDate t) || has notifiedTasks (id t) then false
  else
    match parse (string_of (dueDate t)) with
    | Some due => (now <? due) && (due <=? now + 10 * 60 * 1000)
    | None => false
    end.

(** One pass of [checkUpcomingTasks]: the todos it notifies, in order, and
    [notifiedTasks] once React has applied the queued updates. *)
Definition checkUpcomingTasks (parse : string -> option Z) (now : Z)
  (notifiedTasks : list (option string)) (todos : list todo)
  : list todo * list (option string) :=
  let due_soon := filter (notifies parse now notifiedTasks) todos in
  (due_soon, fold_left add (map id due_soon) notifiedTasks).

(** The passes of a session, each at its time over the todos of that
    moment, from the set [notifiedTasks] the one before left: the todos
    each pass notifies. *)
Fixpoint checks (parse : string -> option Z)
  (notifiedTasks : list (option string)) (passes : list (Z * list todo))
  : list (list todo) :=
  match passes with
  | [] => []
  | (now, todos) :: passes' =>
      fst (checkUpcomingTasks parse now notifiedTasks todos)
      :: checks parse
           (snd (checkUpcomingTasks parse now notifiedTasks todos)) passes'
  end.

End Client.

(** A list of distinct literals has no duplicate. *)
Ltac distinct :=
  repeat (constructor;
          [simpl; intros H;
           repeat (destruct H as [H|H]; [discriminate H|]); exact H|]);
  constructor.

(* ================================================================= *)
(** ** The server *)

Section Server.

(** A proof depends on the section's variables and hypotheses that its
    statement or its [Proof using] line names, and on no other. *)
Set Default Proof Using "Type".

(** bcryptjs: [hash(password, 10)] with the salt it drew, and [compare]. *)
Variable bcrypt_hash : string -> string -> string.
Variable bcrypt_compare : string -> string -> bool.

(** jsonwebtoken under [JWT_SECRET]: [sign({ userId })] at a given time,
    and [verify], which yields the [userId] of the payload or throws. *)
Variable jwt_sign : string -> Z -> string.
Variable jwt_verify : string -> option string.

(** The contracts of the two libraries, assumed only where a proof names
    them: [bcrypt.compare] accepts a password against a hash [bcrypt.hash]
    made of it; [jwt.verify] accepts a token [jwt.sign] made and yields its
    payload; a token is never the empty string. *)
Hypothesis bcrypt_accepts :
  forall password s, bcrypt_compare password (bcrypt_hash password s) = true.
Hypothesis jwt_round_trip :
  forall uid t, jwt_verify (jwt_sign uid t) = Some uid.
Hypothesis jwt_not_empty :
  forall uid t, jwt_sign uid t <> "".

(** The token [authenticate] goes on with. *)
Definition credential (req : request) : option string :=
  match authorization req with
  | Some authHeader =>
      if JS.startsWith "Bearer " authHeader
      then Some (JS.substring_from 7 authHeader)
      else session_token req
  | None => session_token req
  end.

Definition authenticate (req : request) : auth :=
  let token := credential req in
  if JS.falsy token then Rejected 401 (ErrorBody "Unauthorized")
  else
    match jwt_verify (string_of token) with
    | Some uid => Authenticated uid
    | None => Rejected 401 (ErrorBody "Invalid token")
    end.

(** A route behind [authenticate]. *)
Definition authenticated (req : request) (st : store)
  (handler : string -> outcome * store) : reply :=
  match authenticate req with
  | Authenticated uid =>
      let (o, st') := handler uid in Reply o st' (session_token req)
  | Rejected status b => Reply (Responded status b) st (session_token req)
  end.

(** [POST /api/auth/register]. *)
Definition register (e : env) (req : request)
  (name email password : option string) (st : store) : reply :=
  if JS.falsy email || JS.falsy password || JS.falsy name then
    Reply (Responded 400 (ErrorBody "Todos os campos são obrigatórios"))
          st (session_token req)
  else
    let id := rand_id e in
    let hashedPassword := bcrypt_hash (string_of password) (salt e) in
    match
      insert_into_users id (string_of name) (string_of email)
        hashedPassword st
    with
    | Ok st' =>
        let token := jwt_sign id (iat e) in
        Reply (Responded 200 (AuthBody id token)) st' (Some token)
    | Throw err =>
        if JS.truthy (message err)
           && JS.includes "UNIQUE constraint failed" (message err) then
          Reply (Responded 400 (ErrorBody "Email já cadastrado"))
                st (session_token req)
        else
          Reply (Responded 500
                   (ErrorBody ("Erro ao criar usuário: " ++
                               JS.or_default (Some (message err))
                                 "Erro desconhecido")))
                st (session_token req)
    end.

(** [POST /api/auth/login].  [bcrypt.compare] rejects a password that is
    not a string, with "Illegal arguments: undefined, string" for an absent
    one ("object" for "undefined" when it is [null]); nothing in the async
    handler catches that, and no response is sent. *)
Definition login (e : env) (req : request)
  (email password : option string) (st : store) : reply :=
  match select_user_by_email email st with
  | None =>
      Reply (Responded 401 (ErrorBody "Credenciais inválidas"))
            st (session_token req)
  | Some user =>
      match password with
      | None =>
          Reply (Uncaught (Error "Illegal arguments: undefined, string"))
                st (session_token req)
      | Some pw =>
          if bcrypt_compare pw (User.password user) then
            let token := jwt_sign (User.id user) (iat e) in
            Reply (Responded 200 (AuthBody (User.id user) token))
                  st (Some token)
          else
            Reply (Responded 401 (ErrorBody "Credenciais inválidas"))
                  st (session_token req)
      end
  end.

(** [GET /api/tasks]. *)
Definition get_tasks (req : request) (st : store) : reply :=
  authenticated req st (fun uid =>
    (Responded 200 (TasksBody (map Task.to_json (select_tasks uid st))), st)).

(** The arguments [POST /api/tasks] hands to [.run(...)]. *)
Definition run_arguments (uid : string) (b : raw_body) : list JS.value :=
  [r_id b; JS.Scalar (Some uid); r_text b; r_priority b; r_dueDate b;
   r_googleEventId b; JS.or_value (r_reminderType b) "none";
   JS.or_value (r_reminderTiming b) "1h"; JS.or_value (r_contactInfo b) ""].

(** The parameters [POST /api/tasks] binds, when their number fits. *)
Definition task_params_of (uid : string) (b : raw_body) : result task_params :=
  bind_task_params (run_arguments uid b).

(** [POST /api/tasks]: no [try] around the INSERT. *)
Definition post_tasks (req : request) (b : raw_body) (st : store) : reply :=
  authenticated req st (fun uid =>
    match task_params_of uid b with
    | Ok p =>
        match insert_into_tasks p st with
        | Ok st' => (Responded 200 SuccessBody, st')
        | Throw err => (Uncaught err, st)
        end
    | Throw err => (Uncaught err, st)
    end).

(** [PUT /api/tasks/:id]; [completed] is the truthiness of the body's
    field. *)
Definition put_task (req : request) (id : string) (completed : bool)
  (st : store) : reply :=
  authenticated req st (fun uid =>
    (Responded 200 SuccessBody,
     update_completed (if completed then 1 else 0) id uid st)).

(** [DELETE /api/tasks/:id]. *)
Definition delete_task (req : request) (id : string) (st : store) : reply :=
  authenticated req st (fun uid =>
    (Responded 200 SuccessBody, delete_from_tasks id uid st)).

(** [POST /api/auth/logout]: [req.session = null]. *)
Definition logout (req : request) (st : store) : reply :=
  Reply (Responded 200 SuccessBody) st None.

(** [PUT /api/user/branding]. *)
Definition put_branding (req : request) (b : branding_body) (st : store)
  : reply :=
  authenticated req st (fun uid =>
    if negb (is_premium uid st) then
      (Responded 403
         (ErrorBody "Esta funcionalidade é exclusiva para usuários Premium."),
       st)
    else (Responded 200 SuccessBody, update_branding b uid st)).

(** [POST /api/finance/confirm-payment]. *)
Definition confirm_payment (req : request) (st : store) : reply :=
  authenticated req st (fun uid =>
    (Responded 200 SuccessBody, update_premium uid st)).

(** One request to a modelled route.  The routes left out (the status
    check, the QR code, the calendar proxy) write neither table. *)
Inductive call : Type :=
| Register (e : env) (name email password : option string)
| Login (e : env) (email password : option string)
| Logout
| GetTasks
| PostTasks (b : raw_body)
| PutTask (id : string) (completed : bool)
| DeleteTask (id : string)
| PutBranding (b : branding_body)
| ConfirmPayment.

Definition serve (req : request) (c : call) (st : store) : reply :=
  match c with
  | Register e name email password => register e req name email password st
  | Login e email password => login e req email password st
  | Logout => logout req st
  | GetTasks => get_tasks req st
  | PostTasks b => post_tasks req b st
  | PutTask id completed => put_task req id completed st
  | DeleteTask id => delete_task req id st
  | PutBranding b => put_branding req b st
  | ConfirmPayment => confirm_payment req st
  end.

(** The store after a sequence of requests, served one after the other. *)
Fixpoint serve_all (rs : list (request * call)) (st : store) : store :=
  match rs with
  | [] => st
  | (req, c) :: rs' => serve_all rs' (store_of (serve req c st))
  end.

(* ================================================================= *)
(** ** Notions the statements use *)

(** Two rows that agree on every column but [completed]. *)
Definition same_but_completed (old new : Task.row) : Prop :=
  Task.id new = Task.id old /\
  Task.userId new = Task.userId old /\
  Task.text new = Task.text old /\
  Task.priority new = Task.priority old /\
  Task.dueDate new = Task.dueDate old /\
  Task.googleEventId new = Task.googleEventId old /\
  Task.reminderType new = Task.reminderType old /\
  Task.reminderTiming new = Task.reminderTiming old /\
  Task.contactInfo new = Task.contactInfo old.

(** The rows of [uid], in rowid order. *)
Definition tasks_of (uid : string) (st : store) : list Task.row :=
  filter (fun r => Sql.eq_text (Task.userId r) uid) (tasks st).

(** What the login of [email] depends on: the id and the password hash of
    the row the SELECT of the login route finds. *)
Definition credentials (email : string) (st : store)
  : option (string * string) :=
  match select_user_by_email (Some email) st with
  | Some u => Some (User.id u, User.password u)
  | None => None
  end.

(** The two channels of a credential, after the specification: the bearer
    credential of the [Authorization] header, and the token of the cookie
    session. *)
Definition bearer_channel (req : request) : option string :=
  match authorization req with
  | Some authHeader =>
      if JS.startsWith "Bearer " authHeader
      then Some (JS.substring_from 7 authHeader)
      else None
  | None => None
  end.

Definition cookie_channel (req : request) : option string :=
  session_token req.

(** The specification's rule: the first channel present and non-empty
    wins. *)
Definition spec_credential (req : request) : option string :=
  if negb (JS.falsy (bearer_channel req)) then bearer_channel req
  else if negb (JS.falsy (cookie_channel req)) then cookie_channel req
  else None.

(** The specification's middleware: unauthenticated when neither channel
    gives a credential, else the verification of the winning one. *)
Definition spec_authenticate (req : request) : auth :=
  match spec_credential req with
  | None => Rejected 401 (ErrorBody "Unauthorized")
  | Some token =>
      match jwt_verify token with
      | Some uid => Authenticated uid
      | None => Rejected 401 (ErrorBody "Invalid token")
      end
  end.

(** *** The status route *)

(** The [user] object of the status route: the selected columns, with
    [isPremium: !!user.isPremium]. *)
Record profile : Type := Profile {
  pr_id : string;
  pr_name : option string;
  pr_email : string;
  pr_isPremium : bool;
  pr_brandName : option string;
  pr_logoUrl : option string;
  pr_primaryColor : option string;
  pr_customDomain : option string
}.

Definition profile_of (u : User.row) : profile :=
  Profile (User.id u) (User.name u) (User.email u)
    (negb (User.isPremium u =? 0)) (User.brandName u) (User.logoUrl u)
    (User.primaryColor u) (User.customDomain u).

(** The body of the status route, always sent with status 200. *)
Inductive status_body : Type :=
| NotAuthenticated                    (* { isAuthenticated: false } *)
| IsAuthenticated (user : profile).   (* { isAuthenticated: true, user } *)

(** [SELECT id, name, email, isPremium, brandName, logoUrl, primaryColor,
    customDomain FROM users WHERE id = ?] with [.get]. *)
Definition select_user_by_id (uid : string) (st : store) : option User.row :=
  find (fun u => (User.id u =? uid)%string) (users st).

(** [GET /api/auth/status]. *)
Definition get_status (req : request) (st : store) : status_body :=
  let token := credential req in
  if JS.falsy token then NotAuthenticated
  else
    match jwt_verify (string_of token) with
    | Some uid =>
        match select_user_by_id uid st with
        | Some user => IsAuthenticated (profile_of user)
        | None => NotAuthenticated
        end
    | None => NotAuthenticated
    end.

(** *** What the constraints of the schema keep *)

(** The primary keys of the stored tasks that are not NULL. *)
Definition task_keys (ts : list Task.row) : list string :=
  flat_map (fun r => match Task.id r with Some i => [i] | None => [] end) ts.

(** No two users share an id or an email. *)
Definition users_unique (st : store) : Prop :=
  NoDup (map User.id (users st)) /\ NoDup (map User.email (users st)).

(** No two tasks share an id that is not NULL. *)
Definition task_ids_unique (st : store) : Prop :=
  NoDup (task_keys (tasks st)).

(** Every task that has an owner has a stored user for owner. *)
Definition owners_exist (st : store) : Prop :=
  forall t uid,
    In t (tasks st) -> Task.userId t = Some uid -> user_exists uid st = true.


(** Two user rows that agree on every column but [isPremium]. *)
Definition same_but_premium (old new : User.row) : Prop :=
  User.id new = User.id old /\
  User.email new = User.email old /\
  User.password new = User.password old /\
  User.name new = User.name old /\
  User.brandName new = User.brandName old /\
  User.logoUrl new = User.logoUrl old /\
  User.primaryColor new = User.primaryColor old /\
  User.customDomain new = User.customDomain old.

(** The list the client holds after [fetchTasks] answered for [uid]. *)
Definition fetched (uid : string) (st : store) : list Client.todo :=
  map Client.of_json (map Task.to_json (select_tasks uid st)).

(** The routes behind [authenticate]. *)
Definition guarded (c : call) : bool :=
  match c with
  | Register _ _ _ _ | Login _ _ _ | Logout => false
  | _ => true
  end.

(** What one request can do to the store: nothing, one user more, some
    users rewritten in place with their id, email and password left alone,
    one task more, some tasks rewritten in place with their id and owner
    left alone, or some tasks fewer. *)
Inductive effect (st : store) : store -> Prop :=
| eff_none : effect st st
| eff_new_user (u : User.row) :
    user_id_taken (User.id u) st = false ->
    email_taken (User.email u) st = false ->
    effect st (with_users st (users st ++ [u]))
| eff_users (g : User.row -> User.row) :
    (forall u, User.id (g u) = User.id u /\
               User.email (g u) = User.email u /\
               User.password (g u) = User.password u /\
               (User.isPremium (g u) = User.isPremium u \/
                User.isPremium (g u) = 1)) ->
    effect st (with_users st (map g (users st)))
| eff_new_task (r : Task.row) :
    task_id_taken (Task.id r) st = false ->
    owner_missing (Task.userId r) st = false ->
    effect st (with_tasks st (tasks st ++ [r]))
| eff_tasks (g : Task.row -> Task.row) :
    (forall r, Task.id (g r) = Task.id r /\
               Task.userId (g r) = Task.userId r) ->
    effect st (with_tasks st (map g (tasks st)))
| eff_fewer_tasks (f : Task.row -> bool) :
    effect st (with_tasks st (filter f (tasks st))).

(** The request is a payment confirmation of [uid]. *)
Definition pays (uid : string) (rc : request * call) : Prop :=
  snd rc = ConfirmPayment /\ authenticate (fst rc) = Authenticated uid.


Ltac as_user H :=
  unfold get_tasks, post_tasks, put_task, delete_task, put_branding,
    confirm_payment, authenticated;
  rewrite H; simpl.

(* ================================================================= *)
(** ** Properties of the task routes *)

Lemma eq_text_true (col : option string) (v : string) :
  Sql.eq_text col v = true <-> col = Some v.
Proof.
  unfold Sql.eq_text. destruct col as [s|].
  - rewrite String.eqb_eq. split; [now intros ->|now intros [= ->]].
  - split; discriminate.
Qed.


Lemma owned_by_true (id uid : string) (r : Task.row) :
  owned_by id uid r = true <->
  Task.id r = Some id /\ Task.userId r = Some uid.
Proof.
  unfold owned_by. now rewrite andb_true_iff, !eq_text_true.
Qed.


Lemma filter_keeps_all {A : Type} (f : A -> bool) (l : list A) :
  (forall x, In x l -> f x = true) -> filter f l = l.
Proof.
  induction l as [|a l IH]; simpl; intros H; [reflexivity|].
  rewrite (H a (or_introl eq_refl)). f_equal. apply IH. auto.
Qed.

Lemma map_fixes_all {A : Type} (f : A -> A) (l : list A) :
  (forall x, In x l -> f x = x) -> map f l = l.
Proof.
  induction l as [|a l IH]; simpl; intros H; [reflexivity|].
  rewrite (H a (or_introl eq_refl)). f_equal. apply IH. auto.
Qed.

Lemma with_tasks_same (st : store) : with_tasks st (tasks st) = st.
Proof. now destruct st. Qed.

Lemma update_completed_noop (c : Z) (id uid : string) (st : store) :
  (forall t, In t (tasks st) -> owned_by id uid t = false) ->
  update_completed c id uid st = st.
Proof.
  intros H. unfold update_completed.
  rewrite map_fixes_all; [apply with_tasks_same|].
  intros t Ht. now rewrite (H t Ht).
Qed.

Lemma delete_from_tasks_noop (id uid : string) (st : store) :
  (forall t, In t (tasks st) -> owned_by id uid t = false) ->
  delete_from_tasks id uid st = st.
Proof.
  intros H. unfold delete_from_tasks.
  rewrite filter_keeps_all; [apply with_tasks_same|].
  intros t Ht. now rewrite (H t Ht).
Qed.

Lemma delete_from_tasks_none_left (id uid : string) (st : store) (t : Task.row) :
  In t (tasks (delete_from_tasks id uid st)) -> owned_by id uid t = false.
Proof.
  unfold delete_from_tasks. simpl. rewrite filter_In.
  intros [_ H]. now apply negb_true_iff in H.
Qed.



(** *** [ORDER BY] *)

Lemma leb_text_total (a b : option string) :
  Sql.leb_text a b = false -> Sql.leb_text b a = true.
Proof.
  destruct a as [x|], b as [y|]; simpl; try congruence.
  destruct (String.leb_total x y); congruence.
Qed.

Lemma string_leb_iff (x y : string) :
  String.leb x y = true <-> x = y \/ String_as_OT.lt x y.
Proof.
  unfold String.leb.
  destruct (String.compare x y) eqn:E.
  - apply String_as_OT.cmp_eq in E. split; auto.
  - apply String_as_OT.cmp_lt in E. split; auto.
  - split; [discriminate|].
    intros [H|H].
    + apply String_as_OT.cmp_eq in H. unfold String_as_OT.cmp in H. congruence.
    + apply String_as_OT.cmp_lt in H. unfold String_as_OT.cmp in H. congruence.
Qed.

Lemma string_leb_trans (x y z : string) :
  String.leb x y = true -> String.leb y z = true -> String.leb x z = true.
Proof.
  rewrite !string_leb_iff.
  intros [->|Hxy] [->|Hyz]; auto.
  right. eapply String_as_OT.lt_trans; eassumption.
Qed.

Lemma leb_text_trans (a b c : option string) :
  Sql.leb_text a b = true -> Sql.leb_text b c = true ->
  Sql.leb_text a c = true.
Proof.
  destruct a as [x|], b as [y|], c as [z|]; simpl; try congruence.
  apply string_leb_trans.
Qed.

Section OrderByFacts.
Context {A : Type} (key : A -> option string).

Lemma insert_perm (x : A) (l : list A) :
  Permutation (Sql.insert key x l) (x :: l).
Proof.
  induction l as [|y l IH]; simpl; [reflexivity|].
  destruct (Sql.leb_text (key x) (key y)); [reflexivity|].
  rewrite IH. apply perm_swap.
Qed.

Lemma order_by_perm (l : list A) : Permutation (Sql.order_by key l) l.
Proof.
  induction l as [|x l IH]; simpl; [reflexivity|].
  rewrite insert_perm. now constructor.
Qed.

Lemma insert_sorted (x : A) (l : list A) :
  StronglySorted (Sql.before key) l -> StronglySorted (Sql.before key) (Sql.insert key x l).
Proof.
  induction 1 as [|y l Hl IH Hy]; simpl.
  - repeat constructor.
  - destruct (Sql.leb_text (key x) (key y)) eqn:E.
    + constructor; [now constructor|].
      constructor; [exact E|].
      eapply Forall_impl; [|exact Hy].
      intros z Hz. unfold Sql.before in *. eapply leb_text_trans; eassumption.
    + constructor; [exact IH|].
      eapply Permutation_Forall.
      * symmetry. apply insert_perm.
      * constructor; [|exact Hy]. now apply leb_text_total.
Qed.

Lemma order_by_sorted (l : list A) :
  StronglySorted (Sql.before key) (Sql.order_by key l).
Proof.
  induction l as [|x l IH]; simpl; [constructor|].
  now apply insert_sorted.
Qed.

End OrderByFacts.

Lemma select_tasks_in (uid : string) (st : store) (t : Task.row) :
  In t (select_tasks uid st) <->
  In t (tasks st) /\ Task.userId t = Some uid.
Proof.
  unfold select_tasks. rewrite <- eq_text_true.
  rewrite <- (filter_In (fun r => Sql.eq_text (Task.userId r) uid)).
  split; apply Permutation_in;
    [|symmetry]; apply order_by_perm.
Qed.

(** *** The claims on the task routes *)


(** C8 (frame of the update).  For a request authenticated as [uid],
    [PUT /api/tasks/:id] answers 200 [{ success: true }]; the users are
    untouched; the tasks afterwards are the tasks before, row by row, each
    new row agreeing with the old one on every column but [completed], and
    being the old row itself unless the old row has this id and this owner;
    and when no stored row with this id belongs to [uid], the store is
    unchanged. *)
Theorem put_task_frame (req : request) (uid id : string) (completed : bool)
  (st : store) :
  authenticate req = Authenticated uid ->
  outcome_of (put_task req id completed st) = Responded 200 SuccessBody /\
  users (store_of (put_task req id completed st)) = users st /\
  Forall2
    (fun old new =>
       same_but_completed old new /\
       (Task.completed new = Task.completed old \/
        Task.completed new = (if completed then 1 else 0)) /\
       (~ (Task.id old = Some id /\ Task.userId old = Some uid) ->
        new = old))
    (tasks st) (tasks (store_of (put_task req id completed st))) /\
  ((forall t, In t (tasks st) -> Task.id t = Some id ->
               Task.userId t <> Some uid) ->
   store_of (put_task req id completed st) = st).
Proof.
  intros Hauth. as_user Hauth. repeat split.
  - induction (tasks st) as [|r l IH]; simpl; constructor; [|exact IH].
    destruct (owned_by id uid r) eqn:E.
    + split; [|split].
      * unfold same_but_completed. simpl. repeat split.
      * now right.
      * apply owned_by_true in E. intros H. now destruct H.
    + split; [|split].
      * unfold same_but_completed. repeat split.
      * now left.
      * reflexivity.
  - intros H. apply update_completed_noop.
    intros t Ht. destruct (owned_by id uid t) eqn:E; [|reflexivity].
    apply owned_by_true in E. destruct E as [E1 E2].
    now destruct (H t Ht E1).
Qed.

(** C9 (delete is idempotent).  For a request authenticated as [uid],
    [DELETE /api/tasks/:id] answers 200 [{ success: true }] whatever the id;
    when no stored row with this id belongs to [uid] (the id is unknown,
    already deleted, or another user's) the store is unchanged; and a second
    delete of the same id answers the same and leaves the store as the first
    delete left it. *)
Theorem delete_task_idempotent (req : request) (uid id : string)
  (st : store) :
  authenticate req = Authenticated uid ->
  outcome_of (delete_task req id st) = Responded 200 SuccessBody /\
  ((forall t, In t (tasks st) -> Task.id t = Some id ->
               Task.userId t <> Some uid) ->
   store_of (delete_task req id st) = st) /\
  outcome_of (delete_task req id (store_of (delete_task req id st)))
    = Responded 200 SuccessBody /\
  store_of (delete_task req id (store_of (delete_task req id st)))
    = store_of (delete_task req id st).
Proof.
  intros Hauth. as_user Hauth. repeat split.
  - intros H. apply delete_from_tasks_noop.
    intros t Ht. destruct (owned_by id uid t) eqn:E; [|reflexivity].
    apply owned_by_true in E. destruct E as [E1 E2].
    now destruct (H t Ht E1).
  - apply delete_from_tasks_noop.
    intros t. apply delete_from_tasks_none_left.
Qed.

Lemma sorted_map_to_json (l : list Task.row) :
  StronglySorted (Sql.before Task.dueDate) l ->
  StronglySorted (Sql.before Task.j_dueDate) (map Task.to_json l).
Proof.
  induction 1 as [|r l Hl IH Hr]; simpl; constructor; [exact IH|].
  apply Forall_map. exact Hr.
Qed.

Lemma sorted_all_before {A : Type} (R : A -> A -> Prop) (l1 l2 : list A)
  (x : A) :
  StronglySorted R (l1 ++ x :: l2)%list -> Forall (fun y => R y x) l1.
Proof.
  induction l1 as [|a l1 IH]; simpl; intros H; [constructor|].
  inversion H as [|? ? Hs Ha]; subst.
  constructor; [|now apply IH].
  rewrite Forall_forall in Ha. apply Ha.
  apply in_or_app. right. now left.
Qed.

Lemma value_bound (d : Due.digit) : 0 <= Due.value d <= 9.
Proof. destruct d; simpl; lia. Qed.

Lemma compare_digits (d e : Due.digit) :
  Ascii.compare (Due.char_of d) (Due.char_of e)
  = (Due.value d ?= Due.value e).
Proof. destruct d, e; reflexivity. Qed.

Lemma compare_same (c : ascii) : Ascii.compare c c = Eq.
Proof. unfold Ascii.compare. apply N.compare_refl. Qed.

Lemma rank_four (a1 a2 a3 a4 a5 a6 a7 a8 a9 a10 a11 a12 : Due.digit) :
  Due.rank (Due.DateTime [a1; a2; a3; a4] (a5, a6) (a7, a8) (a9, a10)
              (a11, a12))
  = 100000000000 * Due.value a1 + 10000000000 * Due.value a2
    + 1000000000 * Due.value a3 + 100000000 * Due.value a4
    + 10000000 * Due.value a5 + 1000000 * Due.value a6
    + 100000 * Due.value a7 + 10000 * Due.value a8
    + 1000 * Due.value a9 + 100 * Due.value a10
    + 10 * Due.value a11 + Due.value a12.
Proof.
  unfold Due.rank, Due.number, Due.two_value.
  cbn [fold_left Due.year Due.month Due.day Due.hour Due.minute fst snd].
  lia.
Qed.

Ltac digit_bounds :=
  repeat match goal with
         | d : Due.digit |- _ =>
             lazymatch goal with
             | _ : 0 <= Due.value d <= 9 |- _ => fail
             | _ => pose proof (value_bound d)
             end
         end.

(** With years of four digits the order of the texts is the order of the
    moments. *)
Lemma leb_print_rank (a b : Due.datetime) :
  length (Due.year a) = 4%nat -> length (Due.year b) = 4%nat ->
  String.leb (Due.print a) (Due.print b) = true ->
  Due.rank a <= Due.rank b.
Proof.
  destruct a as [ya [a5 a6] [a7 a8] [a9 a10] [a11 a12]].
  destruct b as [yb [b5 b6] [b7 b8] [b9 b10] [b11 b12]].
  cbn [Due.year].
  destruct ya as [|a1 [|a2 [|a3 [|a4 [|? ?]]]]]; try discriminate.
  destruct yb as [|b1 [|b2 [|b3 [|b4 [|? ?]]]]]; try discriminate.
  intros _ _. rewrite !rank_four.
  unfold String.leb, Due.print, Due.two.
  cbn [Due.chars append String.compare fst snd Due.year Due.month Due.day
       Due.hour Due.minute].
  rewrite !compare_digits, !compare_same.
  digit_bounds.
  repeat match goal with
         | |- context [Due.value ?x ?= Due.value ?y] =>
             destruct (Z.compare_spec (Due.value x) (Due.value y))
         end; cbv beta iota; intros E; try discriminate E; lia.
Qed.

Lemma char_of_inj (d e : Due.digit) : Due.char_of d = Due.char_of e -> d = e.
Proof. destruct d, e; intros H; try reflexivity; discriminate H. Qed.

Lemma chars_dash (y1 y2 : list Due.digit) (r1 r2 : string) :
  Due.chars y1 ++ String "-" r1 = Due.chars y2 ++ String "-" r2 ->
  y1 = y2 /\ r1 = r2.
Proof.
  revert y2. induction y1 as [|d y1 IH]; intros [|e y2]; simpl; intros H.
  - injection H as H. now split.
  - injection H as H _. destruct e; discriminate H.
  - injection H as H _. destruct d; discriminate H.
  - injection H as Hd H. apply char_of_inj in Hd. apply IH in H.
    destruct H as [-> ->]. now subst.
Qed.

(** A text is the text of one moment only. *)
Lemma print_inj (a b : Due.datetime) : Due.print a = Due.print b -> a = b.
Proof.
  destruct a as [ya [a5 a6] [a7 a8] [a9 a10] [a11 a12]].
  destruct b as [yb [b5 b6] [b7 b8] [b9 b10] [b11 b12]].
  unfold Due.print, Due.two.
  cbn [Due.year Due.month Due.day Due.hour Due.minute fst snd append].
  intros H. apply chars_dash in H. destruct H as [-> H].
  injection H as H1 H2 H3 H4 H5 H6 H7 H8.
  repeat match goal with
         | H : Due.char_of _ = Due.char_of _ |- _ => apply char_of_inj in H
         end.
  now subst.
Qed.

Lemma leb_text_ascending (a b : option string) :
  Sql.leb_text a b = true -> Due.text_ascending a b.
Proof.
  destruct a as [x|], b as [y|]; simpl; trivial; [|discriminate].
  apply string_leb_iff.
Qed.

Lemma leb_due_ascending (a b : option string) :
  Due.local a -> Due.local b ->
  Sql.leb_text a b = true -> Due.ascending a b.
Proof.
  destruct a as [x|], b as [y|]; simpl; trivial; [|discriminate].
  intros [tx [-> Hx]] [ty [-> Hy]] H.
  exists tx, ty. repeat split. now apply leb_print_rank.
Qed.

Lemma sorted_among {A : Type} (R R' : A -> A -> Prop) (l : list A) :
  (forall x y, In x l -> In y l -> R x y -> R' x y) ->
  StronglySorted R l -> StronglySorted R' l.
Proof.
  intros H Hs. induction Hs as [|a l Hl IH Ha]; constructor.
  - apply IH. intros x y Hx Hy. apply H; now right.
  - rewrite Forall_forall in *. intros y Hy.
    apply H; [now left|now right|now apply Ha].
Qed.

(** C6 (order of the list), as the code has it.  For a request
    authenticated as [uid], [GET /api/tasks] answers 200 with exactly the
    tasks of [uid] (a permutation of the stored rows of [uid], each with
    [completed] as a boolean), in ascending order of the stored [dueDate]
    text: every task stands before all later ones in the order where NULL
    precedes every text and two texts stand as in the dictionary on byte
    values.  Tasks without a due date thus come first.  When every due date
    of [uid] is none or of the form [YYYY-MM-DDTHH:mm] with a four-digit
    year, this is the ascending order of the due dates as moments. *)
Theorem get_tasks_ordered (req : request) (uid : string) (st : store) :
  authenticate req = Authenticated uid ->
  exists ts,
    outcome_of (get_tasks req st) = Responded 200 (TasksBody ts) /\
    Permutation ts (map Task.to_json (tasks_of uid st)) /\
    StronglySorted
      (fun a b => Due.text_ascending (Task.j_dueDate a) (Task.j_dueDate b))
      ts /\
    (forall l1 j l2, ts = (l1 ++ j :: l2)%list -> Task.j_dueDate j = None ->
       Forall (fun j' => Task.j_dueDate j' = None) l1) /\
    (Forall (fun t => Due.local (Task.dueDate t)) (tasks_of uid st) ->
     StronglySorted
       (fun a b => Due.ascending (Task.j_dueDate a) (Task.j_dueDate b)) ts).
Proof.
  intros Hauth. eexists. as_user Hauth.
  assert (Hs : StronglySorted (Sql.before Task.j_dueDate)
                 (map Task.to_json (select_tasks uid st))).
  { apply sorted_map_to_json. apply order_by_sorted. }
  split; [reflexivity|]. split; [|split; [|split]].
  - apply Permutation_map. apply order_by_perm.
  - eapply sorted_among; [|exact Hs].
    intros x y _ _. apply leb_text_ascending.
  - intros l1 j l2 E Hj. rewrite E in Hs.
    apply sorted_all_before in Hs.
    eapply Forall_impl; [|exact Hs].
    intros j' Hb. unfold Sql.before in Hb. rewrite Hj in Hb.
    destruct (Task.j_dueDate j'); [discriminate|reflexivity].
  - intros Hl. eapply sorted_among; [|exact Hs].
    assert (Hin : forall j, In j (map Task.to_json (select_tasks uid st)) ->
                            Due.local (Task.j_dueDate j)).
    { intros j Hj. apply in_map_iff in Hj. destruct Hj as [r [<- Hr]].
      apply select_tasks_in in Hr. destruct Hr as [Hr Hu].
      rewrite Forall_forall in Hl. apply (Hl r).
      unfold tasks_of. apply filter_In. split; [exact Hr|].
      now apply eq_text_true. }
    intros x y Hx Hy. apply leb_due_ascending; now apply Hin.
Qed.

Lemma user_exists_with_tasks (uid : string) (st : store) (ts : list Task.row) :
  user_exists uid (with_tasks st ts) = user_exists uid st.
Proof. reflexivity. Qed.

(** With fields that are strings or absent, each of the nine arguments
    binds one parameter, [req.userId] the second. *)
Lemma task_params_of_scalar (uid : string) (b : task_body) :
  task_params_of uid (scalar_body b)
  = Ok (TaskParams (b_id b) (Some uid) (b_text b) (b_priority b)
          (b_dueDate b) (b_googleEventId b)
          (Some (JS.or_default (b_reminderType b) "none"))
          (Some (JS.or_default (b_reminderTiming b) "1h"))
          (Some (JS.or_default (b_contactInfo b) ""))).
Proof. reflexivity. Qed.

(** Progress of the INSERT of a task: with a text, an id that no stored
    task carries and an owner that is a registered user, [POST /api/tasks]
    answers 200 [{ success: true }]. *)
Lemma post_tasks_succeeds (req : request) (uid : string) (b : task_body)
  (st : store) :
  authenticate req = Authenticated uid ->
  b_text b <> None ->
  task_id_taken (b_id b) st = false ->
  user_exists uid st = true ->
  outcome_of (post_tasks req (scalar_body b) st) = Responded 200 SuccessBody.
Proof.
  intros Hauth Ht Hid Hu. as_user Hauth.
  unfold insert_into_tasks, owner_missing. simpl.
  destruct (b_text b); [|congruence].
  now rewrite Hid, Hu.
Qed.

(** C7 (round trip), as the code has it.  Let a task be created (the
    POST answered 200) by a request authenticated as [uid], with every field
    supplied as a string.  Then the list [uid] gets next holds that task,
    with [completed] the boolean [false] and every field as supplied, except
    that a reminder kind supplied empty comes back as "none" and a reminder
    lead time supplied empty comes back as "1h". *)
Theorem post_then_get_tasks (req : request) (uid : string) (st : store)
  (id text priority dueDate googleEventId reminderType reminderTiming
   contactInfo : string) :
  let b := TaskBody (Some id) (Some text) (Some priority) (Some dueDate)
             (Some googleEventId) (Some reminderType) (Some reminderTiming)
             (Some contactInfo) in
  authenticate req = Authenticated uid ->
  outcome_of (post_tasks req (scalar_body b) st)
    = Responded 200 SuccessBody ->
  exists ts,
    outcome_of (get_tasks req (store_of (post_tasks req (scalar_body b) st)))
      = Responded 200 (TasksBody ts) /\
    In (Task.Json (Some id) (Some uid) text false (Some priority)
          (Some dueDate) (Some googleEventId)
          (Some (if (reminderType =? "")%string then "none"
                 else reminderType))
          (Some (if (reminderTiming =? "")%string then "1h"
                 else reminderTiming))
          (Some contactInfo)) ts.
Proof.
  intros b Hauth Hok. eexists.
  revert Hok. as_user Hauth.
  unfold insert_into_tasks, owner_missing. simpl.
  destruct (existsb _ (tasks st)); simpl; [discriminate|].
  destruct (user_exists uid st); simpl; [|discriminate].
  intros _. split; [reflexivity|].
  apply in_map_iff.
  exists (Task.Row (Some id) (Some uid) text 0 (Some priority)
            (Some dueDate) (Some googleEventId)
            (Some (if (reminderType =? "")%string then "none"
                   else reminderType))
            (Some (if (reminderTiming =? "")%string then "1h"
                   else reminderTiming))
            (Some contactInfo)).
  split; [reflexivity|].
  apply select_tasks_in. simpl. split; [|reflexivity].
  apply in_or_app. right. left.
  unfold JS.or_default, JS.truthy.
  destruct (reminderType =? "")%string, (reminderTiming =? "")%string;
    simpl;
    now destruct (contactInfo =? "")%string eqn:E;
      [apply String.eqb_eq in E; subst|].
Qed.

(* ================================================================= *)
(** ** Properties of the authentication routes *)

(** *** The middleware *)

Lemma substring_all (s : string) : String.substring 0 (String.length s) s = s.
Proof. induction s as [|c s IH]; simpl; [reflexivity|now rewrite IH]. Qed.

Lemma substring_from_0 (s : string) : JS.substring_from 0 s = s.
Proof.
  unfold JS.substring_from. rewrite Nat.sub_0_r. apply substring_all.
Qed.

Lemma startsWith_split (p s : string) :
  JS.startsWith p s = true ->
  s = (p ++ JS.substring_from (String.length p) s)%string.
Proof.
  unfold JS.startsWith. revert s.
  induction p as [|a p IH]; intros s H; simpl.
  - now rewrite substring_from_0.
  - destruct s as [|b s]; simpl in H; [discriminate|].
    destruct (ascii_dec a b) as [->|]; [|discriminate].
    f_equal. exact (IH s H).
Qed.

Lemma empty_bearer (h : string) :
  JS.startsWith "Bearer " h = true ->
  JS.substring_from 7 h = "" ->
  h = "Bearer ".
Proof.
  intros Hp He. apply startsWith_split in Hp.
  simpl String.length in Hp. rewrite He in Hp. exact Hp.
Qed.

(** [authenticate] as a function of any header string: it does what the
    specification's rule says, except for a header that is exactly
    "Bearer ", with nothing after the space, which it answers 401
    "Unauthorized" whatever the cookie session holds. *)
Theorem authenticate_channels (req : request) :
  authenticate req =
  match authorization req with
  | Some authHeader =>
      if (authHeader =? "Bearer ")%string
      then Rejected 401 (ErrorBody "Unauthorized")
      else spec_authenticate req
  | None => spec_authenticate req
  end.
Proof.
  unfold authenticate, spec_authenticate, spec_credential, credential,
    bearer_channel, cookie_channel.
  destruct req as [[h|] [s|]]; simpl;
    try (unfold JS.truthy; destruct (s =? "")%string; reflexivity);
    try reflexivity.
  - destruct (h =? "Bearer ")%string eqn:Eh.
    + apply String.eqb_eq in Eh. subst h. reflexivity.
    + destruct (JS.startsWith "Bearer " h) eqn:Ep; simpl.
      * unfold JS.truthy.
        destruct (JS.substring_from 7 h =? "")%string eqn:Er; simpl.
        -- apply String.eqb_eq in Er. apply String.eqb_neq in Eh.
           destruct Eh. now apply empty_bearer.
        -- reflexivity.
      * unfold JS.truthy. destruct (s =? "")%string; reflexivity.
  - destruct (h =? "Bearer ")%string eqn:Eh.
    + apply String.eqb_eq in Eh. subst h. reflexivity.
    + destruct (JS.startsWith "Bearer " h) eqn:Ep; simpl; [|reflexivity].
      unfold JS.truthy.
      destruct (JS.substring_from 7 h =? "")%string eqn:Er; reflexivity.
Qed.

(** C3 (priority of the channels).  On every request the server can
    receive, the header value carrying no space or tab at its ends,
    [authenticate] follows the specification's rule: it goes on with the
    bearer credential of the [Authorization] header when that is present
    and not empty, else with the token of the cookie session, and answers
    401 "Unauthorized" when neither gives a credential.  In particular the
    header "Bearer" alone falls back to the session. *)
Theorem authenticate_priority (req : request) :
  Http.received req = true ->
  authenticate req = spec_authenticate req.
Proof.
  intros Hr. rewrite authenticate_channels.
  unfold Http.received in Hr.
  destruct (authorization req) as [h|]; [|reflexivity].
  destruct (h =? "Bearer ")%string eqn:E; [|reflexivity].
  apply String.eqb_eq in E. subst h. discriminate Hr.
Qed.

(** *** Login *)

(** With a password that is a string, the two failures of a login are
    answered alike: on one store, a login with an email no user has
    (whatever the password field) and a login with an email some user has
    and a password bcrypt does not accept for that user both get status 401
    and body [{ error: "Credenciais inválidas" }], with the store and the
    session token of the request untouched. *)
Theorem login_failure_generic (e e' : env) (req req' : request) (st : store)
  (unknown known password' : string) (password : option string)
  (u : User.row) :
  select_user_by_email (Some unknown) st = None ->
  select_user_by_email (Some known) st = Some u ->
  bcrypt_compare password' (User.password u) = false ->
  login e req (Some unknown) password st
    = Reply (Responded 401 (ErrorBody "Credenciais inválidas")) st
            (session_token req) /\
  login e' req' (Some known) (Some password') st
    = Reply (Responded 401 (ErrorBody "Credenciais inválidas")) st
            (session_token req') /\
  outcome_of (login e' req' (Some known) (Some password') st)
    = outcome_of (login e req (Some unknown) password st).
Proof.
  intros Hu Hk Hc. unfold login. rewrite Hu, Hk, Hc. now repeat split.
Qed.

(** *** Registration *)

Lemma includes_unique_id :
  JS.includes "UNIQUE constraint failed" "UNIQUE constraint failed: users.id"
  = true.
Proof. reflexivity. Qed.

Lemma includes_unique_email :
  JS.includes "UNIQUE constraint failed"
    "UNIQUE constraint failed: users.email" = true.
Proof. reflexivity. Qed.

(** C4 (rejected registrations).  A registration with an empty or missing
    field, or with an email a stored user already has, is answered with
    status 400 and an error body, "Todos os campos são obrigatórios" when a
    field is empty and "Email já cadastrado" otherwise, and leaves the store,
    so every stored user's record, and the session as they were. *)
Theorem register_rejected (e : env) (req : request)
  (name email password : option string) (st : store) :
  JS.falsy name = true \/ JS.falsy email = true \/ JS.falsy password = true \/
  (exists em, email = Some em /\ email_taken em st = true) ->
  register e req name email password st
  = Reply
      (Responded 400
         (ErrorBody
            (if JS.falsy email || JS.falsy password || JS.falsy name
             then "Todos os campos são obrigatórios"
             else "Email já cadastrado")))
      st (session_token req).
Proof.
  intros H. unfold register.
  destruct (JS.falsy email || JS.falsy password || JS.falsy name) eqn:E;
    [reflexivity|].
  apply orb_false_iff in E. destruct E as [E En].
  apply orb_false_iff in E. destruct E as [Ee Ep].
  destruct H as [H|[H|[H|[em [-> H]]]]]; try congruence.
  unfold insert_into_users. simpl.
  destruct (user_id_taken (rand_id e) st); [reflexivity|].
  rewrite H. reflexivity.
Qed.

(** No error leaves the registration handler when its fields are strings,
    absent or null: it always answers. *)
Lemma register_answers (e : env) (req : request)
  (name email password : option string) (st : store) :
  exists status b,
    outcome_of (register e req name email password st) = Responded status b.
Proof.
  unfold register.
  destruct (JS.falsy email || JS.falsy password || JS.falsy name);
    [now eexists; eexists|].
  destruct (insert_into_users _ _ _ _ st) as [st'|err];
    [now eexists; eexists|].
  destruct (JS.truthy (message err) && JS.includes _ (message err));
    now eexists; eexists.
Qed.

(** *** Errors that leave a handler *)

(** The INSERT of [POST /api/tasks] fails on an id some stored task already
    carries, whoever owns it, and the error leaves the handler. *)
Lemma post_tasks_duplicate_id (req : request) (uid : string) (b : task_body)
  (st : store) :
  authenticate req = Authenticated uid ->
  b_text b <> None ->
  task_id_taken (b_id b) st = true ->
  post_tasks req (scalar_body b) st
  = Reply (Uncaught (Error "UNIQUE constraint failed: tasks.id")) st
          (session_token req).
Proof.
  intros Hauth Ht Hid. as_user Hauth. unfold insert_into_tasks. simpl.
  destruct (b_text b); [|congruence]. now rewrite Hid.
Qed.

(** So does the INSERT of a task without a text. *)
Lemma post_tasks_missing_text (req : request) (uid : string) (b : task_body)
  (st : store) :
  authenticate req = Authenticated uid ->
  b_text b = None ->
  post_tasks req (scalar_body b) st
  = Reply (Uncaught (Error "NOT NULL constraint failed: tasks.text")) st
          (session_token req).
Proof.
  intros Hauth Ht. as_user Hauth. unfold insert_into_tasks. simpl.
  now rewrite Ht.
Qed.

(* ================================================================= *)
(** ** Registration, then login *)

(** *** What the requests leave of a user's credentials *)

Lemma find_app_found {A : Type} (f : A -> bool) (l l' : list A) (x : A) :
  find f l = Some x -> find f (l ++ l') = Some x.
Proof.
  induction l as [|a l IH]; simpl; [discriminate|].
  destruct (f a); [trivial|exact IH].
Qed.

Lemma find_app_fresh {A : Type} (f : A -> bool) (l l' : list A) :
  existsb f l = false -> find f (l ++ l') = find f l'.
Proof.
  induction l as [|a l IH]; simpl; [reflexivity|].
  destruct (f a); simpl; [discriminate|exact IH].
Qed.

Lemma find_map_same_key (f : User.row -> bool) (g : User.row -> User.row)
  (l : list User.row) :
  (forall u, f (g u) = f u) ->
  find f (map g l) = option_map g (find f l).
Proof.
  intros H. induction l as [|a l IH]; simpl; [reflexivity|].
  rewrite H. destruct (f a); [reflexivity|exact IH].
Qed.

Lemma credentials_same_users (email : string) (st st' : store) :
  users st' = users st -> credentials email st' = credentials email st.
Proof.
  intros H. unfold credentials, select_user_by_email. now rewrite H.
Qed.

Lemma store_of_authenticated (req : request) (st : store)
  (handler : string -> outcome * store) :
  store_of (authenticated req st handler) = st \/
  exists uid, store_of (authenticated req st handler) = snd (handler uid).
Proof.
  unfold authenticated. destruct (authenticate req) as [uid|status b].
  - right. exists uid. now destruct (handler uid).
  - now left.
Qed.

Lemma credentials_kept_by_map (email : string) (st : store)
  (g : User.row -> User.row) (c : string * string) :
  (forall u, User.id (g u) = User.id u /\ User.email (g u) = User.email u /\
             User.password (g u) = User.password u) ->
  credentials email st = Some c ->
  credentials email (with_users st (map g (users st))) = Some c.
Proof.
  intros Hg. unfold credentials, select_user_by_email. simpl.
  rewrite find_map_same_key.
  - destruct (find _ (users st)) as [u|]; simpl; [|discriminate].
    destruct (Hg u) as [-> [_ ->]]. trivial.
  - intros u. destruct (Hg u) as [_ [-> _]]. reflexivity.
Qed.

Lemma credentials_kept_by_register (e : env) (req : request)
  (name email' password : option string) (st : store) (email : string)
  (c : string * string) :
  credentials email st = Some c ->
  credentials email (store_of (register e req name email' password st))
  = Some c.
Proof.
  intros H. unfold register.
  destruct (JS.falsy email' || JS.falsy password || JS.falsy name);
    [exact H|].
  unfold insert_into_users.
  destruct (user_id_taken (rand_id e) st); simpl; [exact H|].
  destruct (email_taken (string_of email') st); simpl; [exact H|].
  revert H. unfold credentials, select_user_by_email. simpl.
  destruct (find _ (users st)) as [u|] eqn:F; [|discriminate].
  now rewrite (find_app_found _ _ _ _ F).
Qed.

(** No request changes the id or the password hash under which an email
    logs in. *)
Lemma credentials_kept_by_serve (req : request) (c : call) (st : store)
  (email : string) (cr : string * string) :
  credentials email st = Some cr ->
  credentials email (store_of (serve req c st)) = Some cr.
Proof.
  intros H.
  destruct c as [e n em pw|e em pw| | |b|id cp|id|b|]; simpl.
  - now apply credentials_kept_by_register.
  - unfold login. destruct (select_user_by_email em st); [|exact H].
    destruct pw; [|exact H].
    destruct (bcrypt_compare _ _); exact H.
  - exact H.
  - destruct (store_of_authenticated req st
      (fun uid => (Responded 200
         (TasksBody (map Task.to_json (select_tasks uid st))), st)))
      as [E|[uid E]]; unfold get_tasks; rewrite E; exact H.
  - unfold post_tasks.
    match goal with |- context [authenticated req st ?h] =>
      destruct (store_of_authenticated req st h) as [E|[uid E]]; rewrite E
    end; [exact H|].
    destruct (task_params_of uid b) as [p|err]; [|exact H].
    unfold insert_into_tasks.
    destruct (p_text _); [|exact H].
    destruct (task_id_taken _ st); [exact H|].
    destruct (owner_missing _ st); [exact H|].
    simpl. rewrite <- H. now apply credentials_same_users.
  - unfold put_task.
    match goal with |- context [authenticated req st ?h] =>
      destruct (store_of_authenticated req st h) as [E|[uid E]]; rewrite E
    end; [exact H|].
    simpl. rewrite <- H. now apply credentials_same_users.
  - unfold delete_task.
    match goal with |- context [authenticated req st ?h] =>
      destruct (store_of_authenticated req st h) as [E|[uid E]]; rewrite E
    end; [exact H|].
    simpl. rewrite <- H. now apply credentials_same_users.
  - unfold put_branding.
    match goal with |- context [authenticated req st ?h] =>
      destruct (store_of_authenticated req st h) as [E|[uid E]]; rewrite E
    end; [exact H|].
    destruct (negb (is_premium uid st)); [exact H|].
    simpl. unfold update_branding. apply credentials_kept_by_map; [|exact H].
    intros u. now destruct (User.id u =? uid)%string.
  - unfold confirm_payment.
    match goal with |- context [authenticated req st ?h] =>
      destruct (store_of_authenticated req st h) as [E|[uid E]]; rewrite E
    end; [exact H|].
    simpl. unfold update_premium. apply credentials_kept_by_map; [|exact H].
    intros u. now destruct (User.id u =? uid)%string.
Qed.

Lemma credentials_kept_by_serve_all (rs : list (request * call)) (st : store)
  (email : string) (cr : string * string) :
  credentials email st = Some cr ->
  credentials email (serve_all rs st) = Some cr.
Proof.
  revert st. induction rs as [|[req c] rs IH]; intros st H; simpl.
  - exact H.
  - apply IH. now apply credentials_kept_by_serve.
Qed.

Lemma startsWith_append (p s : string) : JS.startsWith p (p ++ s) = true.
Proof.
  unfold JS.startsWith. induction p as [|a p IH]; simpl.
  - now destruct s.
  - destruct (ascii_dec a a); [exact IH|congruence].
Qed.

Lemma substring_from_append (p s : string) :
  JS.substring_from (String.length p) (p ++ s) = s.
Proof.
  unfold JS.substring_from. induction p as [|a p IH]; simpl.
  - rewrite Nat.sub_0_r. apply substring_all.
  - exact IH.
Qed.

Lemma authenticate_bearer (token uid : string) (s : option string) :
  token <> "" ->
  jwt_verify token = Some uid ->
  authenticate (Request (Some ("Bearer " ++ token)) s) = Authenticated uid.
Proof.
  intros Hne Hv. unfold authenticate, credential.
  cbv [authorization].
  rewrite (startsWith_append "Bearer " token).
  change 7%nat with (String.length "Bearer ").
  rewrite (substring_from_append "Bearer " token).
  cbv [JS.falsy string_of]. unfold JS.truthy.
  apply String.eqb_neq in Hne. rewrite Hne. simpl. now rewrite Hv.
Qed.

Lemma authenticate_cookie (token uid : string) :
  token <> "" ->
  jwt_verify token = Some uid ->
  authenticate (Request None (Some token)) = Authenticated uid.
Proof.
  intros Hne Hv. unfold authenticate, credential. simpl.
  unfold JS.truthy. apply String.eqb_neq in Hne. rewrite Hne. simpl.
  now rewrite Hv.
Qed.

Lemma falsy_nonempty (s : string) : s <> "" -> JS.falsy (Some s) = false.
Proof.
  intros H. simpl. unfold JS.truthy.
  apply String.eqb_neq in H. now rewrite H.
Qed.

(** A registration with three non-empty fields, an email no user has and a
    generated id no user has succeeds: it stores the new user last and
    answers with a token for the generated id. *)
Lemma register_succeeds (e : env) (req : request)
  (name email password : string) (st : store) :
  name <> "" -> email <> "" -> password <> "" ->
  email_taken email st = false ->
  user_id_taken (rand_id e) st = false ->
  register e req (Some name) (Some email) (Some password) st
  = Reply
      (Responded 200
         (AuthBody (rand_id e) (jwt_sign (rand_id e) (iat e))))
      (with_users st
         (users st ++
          [User.Row (rand_id e) email (bcrypt_hash password (salt e))
             (Some name) 0 None None (Some "#059669") None]))
      (Some (jwt_sign (rand_id e) (iat e))).
Proof.
  intros Hn He Hp Hem Hid. unfold register.
  rewrite (falsy_nonempty _ Hn), (falsy_nonempty _ He), (falsy_nonempty _ Hp).
  simpl. unfold insert_into_users. now rewrite Hid, Hem.
Qed.

Lemma login_with_credentials (e : env) (req : request)
  (email password id hashed : string) (st : store) :
  credentials email st = Some (id, hashed) ->
  bcrypt_compare password hashed = true ->
  login e req (Some email) (Some password) st
  = Reply (Responded 200 (AuthBody id (jwt_sign id (iat e)))) st
          (Some (jwt_sign id (iat e))).
Proof.
  unfold credentials, login.
  destruct (select_user_by_email (Some email) st) as [u|]; [|discriminate].
  intros [= <- <-] Hc. now rewrite Hc.
Qed.

(** C2 (registration, then login).  After a registration with non-empty
    name, email and password, an email no user has and a generated id no
    user has, the registration answers 200 with the generated id and a
    token; and whatever requests are served next, a login with the same
    email and password answers 200 with the same user id and a token that
    [jwt.verify] accepts for that id, and that [authenticate] accepts for
    that id both as a bearer header and as the session token the login
    set. *)
Theorem register_then_login (e e' : env) (req req' : request)
  (name email password : string) (st : store)
  (rs : list (request * call)) :
  name <> "" -> email <> "" -> password <> "" ->
  email_taken email st = false ->
  user_id_taken (rand_id e) st = false ->
  let r := register e req (Some name) (Some email) (Some password) st in
  let r' := login e' req' (Some email) (Some password)
              (serve_all rs (store_of r)) in
  exists token token',
    outcome_of r = Responded 200 (AuthBody (rand_id e) token) /\
    outcome_of r' = Responded 200 (AuthBody (rand_id e) token') /\
    session_of r' = Some token' /\
    jwt_verify token' = Some (rand_id e) /\
    (forall s,
        authenticate (Request (Some ("Bearer " ++ token')) s)
        = Authenticated (rand_id e)) /\
    authenticate (Request None (session_of r')) = Authenticated (rand_id e).
Proof using bcrypt_accepts jwt_round_trip jwt_not_empty.
  intros Hn He Hp Hem Hid r r'.
  exists (jwt_sign (rand_id e) (iat e)), (jwt_sign (rand_id e) (iat e')).
  subst r r'. rewrite (register_succeeds e req _ _ _ st Hn He Hp Hem Hid).
  simpl store_of.
  set (st1 := with_users st _).
  assert (Hc : credentials email st1
               = Some (rand_id e, bcrypt_hash password (salt e))).
  { unfold credentials, select_user_by_email, st1. simpl.
    rewrite find_app_fresh by exact Hem. simpl.
    now rewrite String.eqb_refl. }
  rewrite (login_with_credentials e' req' email password (rand_id e)
             (bcrypt_hash password (salt e)));
    [|now apply credentials_kept_by_serve_all|apply bcrypt_accepts].
  simpl. repeat split.
  - apply jwt_round_trip.
  - intros s. apply authenticate_bearer;
      [apply jwt_not_empty|apply jwt_round_trip].
  - apply authenticate_cookie; [apply jwt_not_empty|apply jwt_round_trip].
Qed.

(* ================================================================= *)
(** ** The store under any sequence of requests *)

Lemma authenticated_effect (req : request) (st : store)
  (handler : string -> outcome * store) :
  (forall uid, effect st (snd (handler uid))) ->
  effect st (store_of (authenticated req st handler)).
Proof.
  intros H. destruct (store_of_authenticated req st handler) as [E|[uid E]];
    rewrite E; [constructor|apply H].
Qed.

(** Every modelled request has one of the effects of [effect]. *)
Lemma serve_effect (req : request) (c : call) (st : store) :
  effect st (store_of (serve req c st)).
Proof.
  destruct c as [e n em pw|e em pw| | |b|id cp|id|b|]; simpl.
  - unfold register.
    destruct (JS.falsy em || JS.falsy pw || JS.falsy n); [constructor|].
    unfold insert_into_users.
    destruct (user_id_taken (rand_id e) st) eqn:Ei; [constructor|].
    destruct (email_taken (string_of em) st) eqn:Ee; [constructor|].
    simpl. now apply eff_new_user.
  - unfold login. destruct (select_user_by_email em st); [|constructor].
    destruct pw; [|constructor].
    destruct (bcrypt_compare _ _); constructor.
  - constructor.
  - apply authenticated_effect. intros uid. constructor.
  - apply authenticated_effect. intros uid.
    destruct (task_params_of uid b) as [p|err]; [|constructor].
    unfold insert_into_tasks.
    destruct (p_text _) as [txt|]; [|constructor].
    destruct (task_id_taken _ st) eqn:Ei; [constructor|].
    destruct (owner_missing _ st) eqn:Eu; simpl; [constructor|].
    now apply eff_new_task.
  - apply authenticated_effect. intros uid. simpl.
    unfold update_completed. apply eff_tasks.
    intros r. now destruct (owned_by id uid r).
  - apply authenticated_effect. intros uid. simpl.
    unfold delete_from_tasks. apply eff_fewer_tasks.
  - apply authenticated_effect. intros uid.
    destruct (negb (is_premium uid st)); simpl; [constructor|].
    unfold update_branding. apply eff_users.
    intros u. destruct (User.id u =? uid)%string; simpl; auto.
  - apply authenticated_effect. intros uid. simpl.
    unfold update_premium. apply eff_users.
    intros u. destruct (User.id u =? uid)%string; simpl; auto.
Qed.

Lemma existsb_false_not_in {A : Type} (key : A -> string) (k : string)
  (l : list A) :
  existsb (fun x => (key x =? k)%string) l = false -> ~ In k (map key l).
Proof.
  induction l as [|a l IH]; simpl; [intros _ []|].
  intros H. apply orb_false_iff in H. destruct H as [Ha Hl].
  apply String.eqb_neq in Ha. intros [E|E]; [contradiction|now apply IH].
Qed.

Lemma NoDup_snoc {A : Type} (l : list A) (x : A) :
  NoDup l -> ~ In x l -> NoDup (l ++ [x]).
Proof.
  intros Hl Hx. apply NoDup_app; [exact Hl|repeat constructor; auto|].
  intros a Ha [<-|[]]. contradiction.
Qed.

Lemma map_same_key {A B : Type} (key : A -> B) (g : A -> A) (l : list A) :
  (forall x, key (g x) = key x) -> map key (map g l) = map key l.
Proof.
  intros H. rewrite map_map. apply map_ext. exact H.
Qed.

Lemma users_unique_effect (st st' : store) :
  effect st st' -> users_unique st -> users_unique st'.
Proof.
  intros E [Hi He].
  destruct E as [|u Hid Hem|g Hg|r _ _|g _|f]; try (split; assumption).
  - split; simpl; rewrite map_app; simpl; apply NoDup_snoc; trivial.
    + now apply existsb_false_not_in.
    + now apply existsb_false_not_in.
  - split; simpl.
    + rewrite (map_same_key User.id); [exact Hi|]. intros u. now destruct (Hg u).
    + rewrite (map_same_key User.email); [exact He|].
      intros u. now destruct (Hg u) as [_ [? _]].
Qed.

(** X2 (users stay distinct).  When no two stored users share an id or an
    email, the same holds after any sequence of requests. *)
Theorem users_unique_kept (rs : list (request * call)) (st : store) :
  users_unique st -> users_unique (serve_all rs st).
Proof.
  revert st. induction rs as [|[req c] rs IH]; intros st H; simpl.
  - exact H.
  - apply IH. eapply users_unique_effect; [apply serve_effect|exact H].
Qed.

Lemma task_keys_app (l l' : list Task.row) :
  task_keys (l ++ l') = (task_keys l ++ task_keys l')%list.
Proof. unfold task_keys. apply flat_map_app. Qed.

Lemma task_id_free (i : string) (st : store) :
  task_id_taken (Some i) st = false -> ~ In i (task_keys (tasks st)).
Proof.
  unfold task_id_taken, task_keys. induction (tasks st) as [|r l IH]; simpl.
  - intros _ [].
  - intros H. apply orb_false_iff in H. destruct H as [Hr Hl].
    intros Hin. apply in_app_or in Hin. destruct Hin as [Hin|Hin].
    + destruct (Task.id r) as [j|]; simpl in *; [|contradiction].
      destruct Hin as [->|[]]. now rewrite String.eqb_refl in Hr.
    + now apply IH.
Qed.

Lemma task_keys_map (g : Task.row -> Task.row) (l : list Task.row) :
  (forall r, Task.id (g r) = Task.id r) ->
  task_keys (map g l) = task_keys l.
Proof.
  intros H. unfold task_keys.
  induction l as [|r l IH]; simpl; [reflexivity|]. now rewrite H, IH.
Qed.

Lemma task_keys_filter_in (f : Task.row -> bool) (l : list Task.row)
  (i : string) :
  In i (task_keys (filter f l)) -> In i (task_keys l).
Proof.
  unfold task_keys. induction l as [|r l IH]; simpl; [trivial|].
  intros H. apply in_or_app.
  destruct (f r); simpl in H.
  - apply in_app_or in H. destruct H; [now left|right; now apply IH].
  - right. now apply IH.
Qed.

Lemma task_keys_filter_NoDup (f : Task.row -> bool) (l : list Task.row) :
  NoDup (task_keys l) -> NoDup (task_keys (filter f l)).
Proof.
  induction l as [|r l IH]; simpl; [trivial|].
  intros H. unfold task_keys in H. simpl in H. fold (task_keys l) in H.
  assert (Hl : NoDup (task_keys l)) by (eapply NoDup_app_remove_l; exact H).
  destruct (f r); [|now apply IH].
  unfold task_keys. simpl. fold (task_keys (filter f l)).
  destruct (Task.id r) as [i|]; simpl in *; [|now apply IH].
  inversion H as [|? ? Hi _]; subst.
  constructor; [|now apply IH].
  intros Hf. apply Hi. now apply task_keys_filter_in in Hf.
Qed.

Lemma task_ids_unique_effect (st st' : store) :
  effect st st' -> task_ids_unique st -> task_ids_unique st'.
Proof.
  unfold task_ids_unique. intros E H.
  destruct E as [|u _ _|g _|r Hid _|g Hg|f]; simpl; trivial.
  - rewrite task_keys_app. unfold task_keys at 2. simpl.
    destruct (Task.id r) as [i|]; simpl.
    + apply NoDup_snoc; [exact H|now apply task_id_free].
    + now rewrite app_nil_r.
  - rewrite task_keys_map; [exact H|]. intros r. now destruct (Hg r).
  - now apply task_keys_filter_NoDup.
Qed.

(** X3 (task ids stay distinct).  When no two stored tasks share an id that
    is not NULL, the same holds after any sequence of requests. *)
Theorem task_ids_unique_kept (rs : list (request * call)) (st : store) :
  task_ids_unique st -> task_ids_unique (serve_all rs st).
Proof.
  revert st. induction rs as [|[req c] rs IH]; intros st H; simpl.
  - exact H.
  - apply IH. eapply task_ids_unique_effect; [apply serve_effect|exact H].
Qed.

Lemma existsb_map_same_key (g : User.row -> User.row) (uid : string)
  (l : list User.row) :
  (forall u, User.id (g u) = User.id u) ->
  existsb (fun u => (User.id u =? uid)%string) (map g l)
  = existsb (fun u => (User.id u =? uid)%string) l.
Proof.
  intros H. induction l as [|a l IH]; simpl; [reflexivity|].
  now rewrite H, IH.
Qed.

Lemma owners_exist_effect (st st' : store) :
  effect st st' -> owners_exist st -> owners_exist st'.
Proof.
  unfold owners_exist, user_exists. intros E H.
  destruct E as [|u _ _|g Hg|r _ Hr|g Hg|f]; simpl; trivial.
  - intros t uid Ht Hu. rewrite existsb_app, (H t uid Ht Hu). reflexivity.
  - intros t uid Ht Hu. rewrite existsb_map_same_key; [now apply (H t)|].
    intros u. now destruct (Hg u).
  - intros t uid Ht Hu. apply in_app_or in Ht.
    destruct Ht as [Ht|[<-|[]]]; [now apply (H t)|].
    unfold owner_missing in Hr. rewrite Hu in Hr.
    now apply negb_false_iff in Hr.
  - intros t uid Ht Hu. apply in_map_iff in Ht. destruct Ht as [r [<- Hr]].
    destruct (Hg r) as [_ E]. rewrite E in Hu. now apply (H r).
  - intros t uid Ht Hu. apply filter_In in Ht. now apply (H t).
Qed.

(** X4 (an owner is a stored user).  When every stored task whose
    [userId] is not NULL has a stored user for owner, the same holds after
    any sequence of requests, whatever their bodies: the foreign key turns
    away a task for an id no user has, and no request removes a user.  (A
    task can be stored with [userId] NULL, which the foreign key does not
    check.) *)
Theorem owners_exist_kept (rs : list (request * call)) (st : store) :
  owners_exist st -> owners_exist (serve_all rs st).
Proof.
  revert st. induction rs as [|[req c] rs IH]; intros st H; simpl.
  - exact H.
  - apply IH. eapply owners_exist_effect; [apply serve_effect|exact H].
Qed.

Lemma is_premium_effect (uid : string) (st st' : store) :
  effect st st' -> is_premium uid st = true -> is_premium uid st' = true.
Proof.
  unfold is_premium. intros E.
  destruct E as [|u _ _|g Hg|r _ _|g _|f]; simpl; trivial.
  - destruct (find _ (users st)) as [v|] eqn:F; [|discriminate].
    now rewrite (find_app_found _ _ _ _ F).
  - rewrite find_map_same_key.
    + destruct (find _ (users st)) as [v|]; simpl; [|discriminate].
      destruct (Hg v) as [_ [_ [_ [->| ->]]]]; trivial.
    + intros u. now destruct (Hg u) as [-> _].
Qed.

(** X5 (premium is one way).  A user who is premium stays premium whatever
    requests are served. *)
Theorem premium_kept (rs : list (request * call)) (st : store)
  (uid : string) :
  is_premium uid st = true -> is_premium uid (serve_all rs st) = true.
Proof.
  revert st. induction rs as [|[req c] rs IH]; intros st H; simpl.
  - exact H.
  - apply IH. eapply is_premium_effect; [apply serve_effect|exact H].
Qed.

(** X1 (the guard).  A request that [authenticate] rejects gets, on every
    route behind it, status 401 with the body of the rejection, "Unauthorized"
    or "Invalid token", and leaves the store and the session as they were. *)
Theorem rejected_everywhere (req : request) (c : call) (st : store)
  (status : Z) (b : body) :
  guarded c = true ->
  authenticate req = Rejected status b ->
  serve req c st = Reply (Responded 401 b) st (session_token req) /\
  (b = ErrorBody "Unauthorized" \/ b = ErrorBody "Invalid token").
Proof.
  intros Hg Ha.
  assert (Hs : status = 401 /\
               (b = ErrorBody "Unauthorized" \/ b = ErrorBody "Invalid token")).
  { revert Ha. unfold authenticate.
    destruct (JS.falsy (credential req)).
    - intros [= <- <-]. auto.
    - destruct (jwt_verify _); [discriminate|]. intros [= <- <-]. auto. }
  destruct Hs as [-> Hb]. split; [|exact Hb].
  destruct c; try discriminate Hg; simpl; as_user Ha; reflexivity.
Qed.

(* ================================================================= *)
(** ** Premium, branding and the status route *)

(** X6 (the branding gate).  For a request authenticated as a user who is
    not premium, or who has no row, [PUT /api/user/branding] answers 403 and
    leaves the store as it was, whatever the body. *)
Theorem branding_forbidden (req : request) (uid : string)
  (b : branding_body) (st : store) :
  authenticate req = Authenticated uid ->
  is_premium uid st = false ->
  put_branding req b st
  = Reply
      (Responded 403
         (ErrorBody "Esta funcionalidade é exclusiva para usuários Premium."))
      st (session_token req).
Proof.
  intros Ha Hp. as_user Ha. now rewrite Hp.
Qed.

Lemma with_users_twice (st : store) (l l' : list User.row) :
  with_users (with_users st l) l' = with_users st l'.
Proof. reflexivity. Qed.

Lemma update_premium_twice (uid : string) (st : store) :
  update_premium uid (update_premium uid st) = update_premium uid st.
Proof.
  unfold update_premium. simpl. rewrite with_users_twice. f_equal.
  rewrite map_map. apply map_ext. intros u.
  destruct (User.id u =? uid)%string eqn:E; simpl; now rewrite E.
Qed.

(** X8 (the payment).  For a request authenticated as [uid],
    [POST /api/finance/confirm-payment] answers 200; the tasks are
    untouched; the users afterwards are the users before, row by row, each
    new row agreeing with the old one on every column but [isPremium],
    which is 1 on the rows of [uid], the other rows being the old rows; and
    a second confirmation changes nothing more. *)
Theorem confirm_payment_frame (req : request) (uid : string) (st : store) :
  authenticate req = Authenticated uid ->
  outcome_of (confirm_payment req st) = Responded 200 SuccessBody /\
  tasks (store_of (confirm_payment req st)) = tasks st /\
  Forall2
    (fun old new =>
       same_but_premium old new /\
       (User.id old = uid -> User.isPremium new = 1) /\
       (User.id old <> uid -> new = old))
    (users st) (users (store_of (confirm_payment req st))) /\
  store_of (confirm_payment req (store_of (confirm_payment req st)))
  = store_of (confirm_payment req st).
Proof.
  intros Ha. as_user Ha. repeat split.
  - induction (users st) as [|u l IH]; simpl; constructor; [|exact IH].
    destruct (User.id u =? uid)%string eqn:E.
    + apply String.eqb_eq in E. repeat split. intros H. contradiction.
    + apply String.eqb_neq in E. repeat split. intros H. contradiction.
  - apply update_premium_twice.
Qed.

Lemma is_premium_update_premium (uid : string) (st : store) :
  user_exists uid st = true -> is_premium uid (update_premium uid st) = true.
Proof.
  unfold user_exists, is_premium, update_premium. simpl.
  induction (users st) as [|u l IH]; simpl; [discriminate|].
  destruct (User.id u =? uid)%string eqn:E; simpl.
  - intros _. now rewrite E.
  - rewrite E. exact IH.
Qed.

(** X7 (payment, then branding).  Once a stored user has confirmed the
    payment, the branding request of that user answers 200; afterwards the
    rows of that user hold the four fields of the body and [isPremium] 1,
    with id, email, password and name as before, every other user row is as
    before, and the tasks are untouched. *)
Theorem payment_then_branding (req req' : request) (uid : string)
  (b : branding_body) (st : store) :
  authenticate req = Authenticated uid ->
  authenticate req' = Authenticated uid ->
  user_exists uid st = true ->
  let st1 := store_of (confirm_payment req st) in
  outcome_of (put_branding req' b st1) = Responded 200 SuccessBody /\
  tasks (store_of (put_branding req' b st1)) = tasks st /\
  Forall2
    (fun old new =>
       if (User.id old =? uid)%string then
         new = User.Row (User.id old) (User.email old) (User.password old)
                 (User.name old) 1 (b_brandName b) (b_logoUrl b)
                 (b_primaryColor b) (b_customDomain b)
       else new = old)
    (users st) (users (store_of (put_branding req' b st1))).
Proof.
  intros Ha Ha' Hu st1. subst st1. as_user Ha. as_user Ha'.
  rewrite (is_premium_update_premium uid st Hu). simpl. repeat split.
  induction (users st) as [|u l IH]; simpl; constructor; [|exact IH].
  destruct (User.id u =? uid)%string eqn:E; simpl; now rewrite E.
Qed.

Lemma get_status_authenticated (req : request) (uid : string) (st : store) :
  authenticate req = Authenticated uid ->
  get_status req st
  = match select_user_by_id uid st with
    | Some u => IsAuthenticated (profile_of u)
    | None => NotAuthenticated
    end.
Proof.
  unfold authenticate, get_status.
  destruct (JS.falsy (credential req)); [discriminate|].
  destruct (jwt_verify _); [|discriminate].
  now intros [= ->].
Qed.

Lemma get_status_rejected (req : request) (status : Z) (b : body)
  (st : store) :
  authenticate req = Rejected status b -> get_status req st = NotAuthenticated.
Proof.
  unfold authenticate, get_status.
  destruct (JS.falsy (credential req)); [reflexivity|].
  now destruct (jwt_verify _).
Qed.

(** X10 (the status route and the middleware).  [GET /api/auth/status]
    reports a user exactly when [authenticate] accepts the request for some
    user id and a row of [users] has that id; the user it reports is the
    first such row, without its password.  In every other case, a missing,
    empty or invalid credential included, it reports
    [{ isAuthenticated: false }]. *)
Theorem get_status_iff (req : request) (st : store) (p : profile) :
  get_status req st = IsAuthenticated p <->
  exists uid u,
    authenticate req = Authenticated uid /\
    select_user_by_id uid st = Some u /\
    p = profile_of u.
Proof.
  split.
  - destruct (authenticate req) as [uid|status b] eqn:Ha.
    + rewrite (get_status_authenticated req uid st Ha).
      destruct (select_user_by_id uid st) as [u|] eqn:Hu; [|discriminate].
      intros [= <-]. now exists uid, u.
    + now rewrite (get_status_rejected req status b st Ha).
  - intros [uid [u [Ha [Hu ->]]]].
    now rewrite (get_status_authenticated req uid st Ha), Hu.
Qed.

Lemma select_user_by_id_update_branding (b : branding_body) (uid : string)
  (st : store) (u : User.row) :
  select_user_by_id uid st = Some u ->
  select_user_by_id uid (update_branding b uid st)
  = Some (User.Row (User.id u) (User.email u) (User.password u)
            (User.name u) (User.isPremium u) (b_brandName b) (b_logoUrl b)
            (b_primaryColor b) (b_customDomain b)).
Proof.
  unfold select_user_by_id, update_branding. simpl.
  induction (users st) as [|v l IH]; simpl; [discriminate|].
  destruct (User.id v =? uid)%string eqn:E; simpl; rewrite E.
  - now intros [= ->].
  - exact IH.
Qed.

(** X11 (branding, then status).  After a branding request of [uid] that
    answered 200, the status route reports for [uid] a premium user with the
    four branding fields of the body. *)
Theorem branding_then_status (req req' : request) (uid : string)
  (b : branding_body) (st : store) :
  authenticate req = Authenticated uid ->
  authenticate req' = Authenticated uid ->
  outcome_of (put_branding req b st) = Responded 200 SuccessBody ->
  exists p,
    get_status req' (store_of (put_branding req b st)) = IsAuthenticated p /\
    pr_id p = uid /\
    pr_isPremium p = true /\
    pr_brandName p = b_brandName b /\
    pr_logoUrl p = b_logoUrl b /\
    pr_primaryColor p = b_primaryColor b /\
    pr_customDomain p = b_customDomain b.
Proof.
  intros Ha Ha'. as_user Ha.
  destruct (is_premium uid st) eqn:Hp; simpl; [|discriminate].
  intros _. rewrite (get_status_authenticated req' uid _ Ha').
  unfold is_premium in Hp. fold (select_user_by_id uid st) in Hp.
  destruct (select_user_by_id uid st) as [u|] eqn:Hu; [|discriminate].
  rewrite (select_user_by_id_update_branding b uid st u Hu).
  eexists. split; [reflexivity|]. simpl. repeat split; trivial.
  unfold select_user_by_id in Hu. apply find_some in Hu.
  destruct Hu as [_ Hu]. now apply String.eqb_eq in Hu.
Qed.

(** X12 (logout revokes nothing).  [POST /api/auth/logout] leaves the store
    as it was and clears the session: a request that relies on the cookie,
    with no header or with the empty header the client sends without a
    stored token, is answered 401 afterwards, while a bearer header with a
    token that verifies is accepted as before. *)
Theorem logout_keeps_bearer (req : request) (st : store)
  (token uid : string) :
  token <> "" ->
  jwt_verify token = Some uid ->
  store_of (logout req st) = st /\
  authenticate (Request None (session_of (logout req st)))
    = Rejected 401 (ErrorBody "Unauthorized") /\
  authenticate (Request (Some "") (session_of (logout req st)))
    = Rejected 401 (ErrorBody "Unauthorized") /\
  authenticate (Request (Some ("Bearer " ++ token)) (session_of (logout req st)))
    = Authenticated uid.
Proof.
  intros Hne Hv. repeat split. now apply authenticate_bearer.
Qed.

(* ================================================================= *)
(** ** Creating tasks *)

Lemma post_tasks_store (req : request) (uid txt : string) (b : task_body)
  (st : store) :
  authenticate req = Authenticated uid ->
  b_text b = Some txt ->
  outcome_of (post_tasks req (scalar_body b) st)
    = Responded 200 SuccessBody ->
  store_of (post_tasks req (scalar_body b) st)
  = with_tasks st
      (tasks st ++
       [Task.Row (b_id b) (Some uid) txt 0 (b_priority b) (b_dueDate b)
          (b_googleEventId b)
          (Some (JS.or_default (b_reminderType b) "none"))
          (Some (JS.or_default (b_reminderTiming b) "1h"))
          (Some (JS.or_default (b_contactInfo b) ""))]).
Proof.
  intros Ha Ht. as_user Ha. unfold insert_into_tasks, owner_missing. simpl.
  rewrite Ht.
  destruct (task_id_taken (b_id b) st); simpl; [discriminate|].
  destruct (user_exists uid st); simpl; [reflexivity|discriminate].
Qed.

(** X13 (when a task is created).  Take a body whose fields are strings
    or absent, no arrays.  For a request authenticated as [uid],
    [POST /api/tasks] answers 200 exactly when the body has a text, no
    stored task of any user carries its id, and [uid] is a stored user.
    Then the store gains that one row, last, owned by [uid], with
    [completed] 0 and the defaults for the empty reminder fields; otherwise
    the store is as it was. *)
Theorem post_tasks_exact (req : request) (uid : string) (b : task_body)
  (st : store) :
  authenticate req = Authenticated uid ->
  (outcome_of (post_tasks req (scalar_body b) st)
     = Responded 200 SuccessBody <->
   b_text b <> None /\ task_id_taken (b_id b) st = false /\
   user_exists uid st = true) /\
  (forall txt,
      b_text b = Some txt ->
      outcome_of (post_tasks req (scalar_body b) st)
        = Responded 200 SuccessBody ->
      store_of (post_tasks req (scalar_body b) st)
      = with_tasks st
          (tasks st ++
           [Task.Row (b_id b) (Some uid) txt 0 (b_priority b) (b_dueDate b)
              (b_googleEventId b)
              (Some (JS.or_default (b_reminderType b) "none"))
              (Some (JS.or_default (b_reminderTiming b) "1h"))
              (Some (JS.or_default (b_contactInfo b) ""))])) /\
  (outcome_of (post_tasks req (scalar_body b) st)
     <> Responded 200 SuccessBody ->
   store_of (post_tasks req (scalar_body b) st) = st).
Proof.
  intros Ha. as_user Ha. unfold insert_into_tasks, owner_missing. simpl.
  destruct (b_text b) as [txt|]; simpl.
  - destruct (task_id_taken (b_id b) st); simpl.
    + repeat split; try discriminate; try reflexivity.
      intros [_ [H _]]. discriminate.
    + destruct (user_exists uid st); simpl.
      * repeat split; try discriminate.
        -- now intros txt' [= <-] _.
        -- intros H. now destruct H.
      * repeat split; try discriminate; try reflexivity.
        intros [_ [_ H]]. discriminate.
  - repeat split; try discriminate; try reflexivity.
    intros [H _]. now destruct H.
Qed.

(** X27 (an array for id chooses the owner).  Let the body of
    [POST /api/tasks] carry for [id] an array of two values and for [text]
    the empty array, its other fields strings or absent.  The nine
    parameters are then the two values, [req.userId], and the six other
    fields: the second value of the array is bound to [userId] and
    [req.userId] to [text].  So when no stored task carries the first value
    for id and the second is NULL or the id of a stored user, a request
    authenticated as any [uid] answers 200 and stores a task owned by that
    second value, with the text [uid]; and the list of that owner then
    holds it. *)
Theorem post_tasks_owner_chosen (req req' : request) (uid i : string)
  (owner priority dueDate googleEventId reminderType reminderTiming
   contactInfo : option string) (st : store) :
  let b := RawBody (JS.Array [Some i; owner]) (JS.Array [])
             (JS.Scalar priority) (JS.Scalar dueDate)
             (JS.Scalar googleEventId) (JS.Scalar reminderType)
             (JS.Scalar reminderTiming) (JS.Scalar contactInfo) in
  let r := Task.Row (Some i) owner uid 0 priority dueDate googleEventId
             (Some (JS.or_default reminderType "none"))
             (Some (JS.or_default reminderTiming "1h"))
             (Some (JS.or_default contactInfo "")) in
  authenticate req = Authenticated uid ->
  task_id_taken (Some i) st = false ->
  owner_missing owner st = false ->
  post_tasks req b st
  = Reply (Responded 200 SuccessBody) (with_tasks st (tasks st ++ [r]))
          (session_token req) /\
  (forall victim,
      owner = Some victim ->
      authenticate req' = Authenticated victim ->
      exists ts,
        outcome_of (get_tasks req' (store_of (post_tasks req b st)))
          = Responded 200 (TasksBody ts) /\
        In (Task.to_json r) ts).
Proof.
  intros b r Ha Hi Ho.
  assert (E : post_tasks req b st
              = Reply (Responded 200 SuccessBody)
                  (with_tasks st (tasks st ++ [r])) (session_token req)).
  { subst b r. as_user Ha. unfold insert_into_tasks. simpl p_text.
    cbv beta iota. simpl p_id. simpl p_userId. now rewrite Hi, Ho. }
  split; [exact E|].
  intros victim Hv Ha'. rewrite E. eexists. as_user Ha'.
  split; [reflexivity|].
  apply in_map. apply select_tasks_in. split.
  - simpl. apply in_or_app. right. now left.
  - subst r. simpl. exact Hv.
Qed.

Lemma eq_text_free (i : string) (st : store) (t : Task.row) :
  task_id_taken (Some i) st = false ->
  In t (tasks st) -> Sql.eq_text (Task.id t) i = false.
Proof.
  unfold task_id_taken. intros H Ht.
  destruct (Sql.eq_text (Task.id t) i) eqn:E; [|reflexivity].
  assert (X : existsb (fun r => Sql.eq_text (Task.id r) i) (tasks st) = true).
  { apply existsb_exists. now exists t. }
  congruence.
Qed.

(** X14 (create, then delete).  When a task was created under an id, a
    delete of that id by the same user restores the store as it was before
    the creation. *)
Theorem post_then_delete (req : request) (uid id : string) (b : task_body)
  (st : store) :
  authenticate req = Authenticated uid ->
  b_id b = Some id ->
  outcome_of (post_tasks req (scalar_body b) st)
    = Responded 200 SuccessBody ->
  store_of (delete_task req id (store_of (post_tasks req (scalar_body b) st)))
  = st.
Proof.
  intros Ha Hid. as_user Ha. unfold insert_into_tasks, owner_missing. simpl.
  destruct (b_text b) as [txt|]; simpl; [|discriminate].
  rewrite Hid.
  destruct (task_id_taken (Some id) st) eqn:Hfree; simpl; [discriminate|].
  destruct (user_exists uid st); simpl; [|discriminate].
  intros _. unfold delete_from_tasks. simpl.
  rewrite filter_app. simpl.
  unfold owned_by at 2. simpl. rewrite !String.eqb_refl. simpl.
  rewrite app_nil_r, filter_keeps_all; [now destruct st|].
  intros t Ht. unfold owned_by.
  now rewrite (eq_text_free id st t Hfree Ht).
Qed.

(** X17 (create, then list).  After a task was created by [uid] from a
    body whose fields are strings or absent, no arrays, the list of [uid]
    is the list before with the new task added: its fields as bound,
    [completed] false; no listed task is lost or changed. *)
Theorem get_tasks_after_post (req : request) (uid txt : string)
  (b : task_body) (st : store) :
  authenticate req = Authenticated uid ->
  b_text b = Some txt ->
  outcome_of (post_tasks req (scalar_body b) st)
    = Responded 200 SuccessBody ->
  exists ts ts',
    outcome_of (get_tasks req st) = Responded 200 (TasksBody ts) /\
    outcome_of (get_tasks req (store_of (post_tasks req (scalar_body b) st)))
      = Responded 200 (TasksBody ts') /\
    Permutation ts'
      (Task.Json (b_id b) (Some uid) txt false (b_priority b) (b_dueDate b)
         (b_googleEventId b)
         (Some (JS.or_default (b_reminderType b) "none"))
         (Some (JS.or_default (b_reminderTiming b) "1h"))
         (Some (JS.or_default (b_contactInfo b) "")) :: ts).
Proof.
  intros Ha Ht Hok.
  rewrite (post_tasks_store req uid txt b st Ha Ht Hok). clear Hok.
  eexists. eexists. as_user Ha. split; [reflexivity|]. split; [reflexivity|].
  unfold select_tasks. simpl. rewrite filter_app. simpl.
  rewrite String.eqb_refl.
  change (Task.Json (b_id b) (Some uid) txt false (b_priority b)
            (b_dueDate b) (b_googleEventId b)
            (Some (JS.or_default (b_reminderType b) "none"))
            (Some (JS.or_default (b_reminderTiming b) "1h"))
            (Some (JS.or_default (b_contactInfo b) "")))
    with (Task.to_json
            (Task.Row (b_id b) (Some uid) txt 0 (b_priority b) (b_dueDate b)
               (b_googleEventId b)
               (Some (JS.or_default (b_reminderType b) "none"))
               (Some (JS.or_default (b_reminderTiming b) "1h"))
               (Some (JS.or_default (b_contactInfo b) "")))).
  rewrite <- map_cons. apply Permutation_map.
  rewrite order_by_perm.
  rewrite <- Permutation_cons_append.
  constructor. symmetry. apply order_by_perm.
Qed.

(* ================================================================= *)
(** ** Tokens and the status route *)

Lemma NoDup_map_same {A B : Type} (f : A -> B) (l : list A) (x y : A) :
  NoDup (map f l) -> In x l -> In y l -> f x = f y -> x = y.
Proof.
  induction l as [|a l IH]; simpl; intros Hn Hx Hy E; [destruct Hx|].
  inversion Hn as [|? ? Ha Hl]; subst.
  destruct Hx as [->|Hx], Hy as [->|Hy]; trivial.
  - destruct Ha. rewrite E. now apply in_map.
  - destruct Ha. rewrite <- E. now apply in_map.
  - now apply IH.
Qed.

Lemma select_user_by_id_unique (st : store) (u : User.row) :
  NoDup (map User.id (users st)) ->
  In u (users st) ->
  select_user_by_id (User.id u) st = Some u.
Proof.
  intros Hn Hu. unfold select_user_by_id.
  destruct (find _ (users st)) as [v|] eqn:F.
  - apply find_some in F. destruct F as [Hv E].
    apply String.eqb_eq in E. f_equal.
    now apply (NoDup_map_same User.id (users st)).
  - apply (find_none _ _ F) in Hu. now rewrite String.eqb_refl in Hu.
Qed.

(** X9 (login, then status).  When no two stored users share an id, the
    token of a login that answered 200 makes the status route report the
    user who logged in, with the id the login answered and the email of the
    login, over the bearer header as over the session the login set. *)
Theorem login_then_status (e : env) (req : request)
  (email password id token : string) (st : store) :
  NoDup (map User.id (users st)) ->
  outcome_of (login e req (Some email) (Some password) st)
    = Responded 200 (AuthBody id token) ->
  exists p,
    (forall s,
        get_status (Request (Some ("Bearer " ++ token)) s) st
        = IsAuthenticated p) /\
    get_status
      (Request None (session_of (login e req (Some email) (Some password) st)))
      st = IsAuthenticated p /\
    pr_id p = id /\
    pr_email p = email.
Proof using jwt_round_trip jwt_not_empty.
  intros Hn. unfold login. simpl.
  destruct (find _ (users st)) as [u|] eqn:F; [|discriminate].
  destruct (bcrypt_compare password (User.password u)); [|discriminate].
  simpl. intros [= <- <-].
  apply find_some in F. destruct F as [Hu E]. apply String.eqb_eq in E.
  exists (profile_of u). repeat split; trivial.
  - intros s.
    rewrite (get_status_authenticated _ (User.id u));
      [now rewrite select_user_by_id_unique|].
    apply authenticate_bearer; [apply jwt_not_empty|apply jwt_round_trip].
  - rewrite (get_status_authenticated _ (User.id u));
      [now rewrite select_user_by_id_unique|].
    apply authenticate_cookie; [apply jwt_not_empty|apply jwt_round_trip].
Qed.

(** X18 (registration, then status).  A registration that succeeds adds
    one user, last, and touches nothing else; with its token the status
    route reports that user: the name and email given, not premium, no
    brand, the default colour. *)
Theorem register_then_status (e : env) (req : request)
  (name email password : string) (st : store) :
  name <> "" -> email <> "" -> password <> "" ->
  email_taken email st = false ->
  user_id_taken (rand_id e) st = false ->
  let r := register e req (Some name) (Some email) (Some password) st in
  exists token,
    outcome_of r = Responded 200 (AuthBody (rand_id e) token) /\
    tasks (store_of r) = tasks st /\
    users (store_of r)
    = (users st ++
       [User.Row (rand_id e) email (bcrypt_hash password (salt e))
          (Some name) 0 None None (Some "#059669") None])%list /\
    forall s,
      get_status (Request (Some ("Bearer " ++ token)) s) (store_of r)
      = IsAuthenticated
          (Profile (rand_id e) (Some name) email false None None
             (Some "#059669") None).
Proof using jwt_round_trip jwt_not_empty.
  intros Hn He Hp Hem Hid r. subst r.
  rewrite (register_succeeds e req _ _ _ st Hn He Hp Hem Hid).
  eexists. split; [reflexivity|]. split; [reflexivity|].
  split; [reflexivity|].
  intros s. rewrite (get_status_authenticated _ (rand_id e)).
  - unfold select_user_by_id. simpl.
    rewrite find_app_fresh by exact Hid. simpl.
    now rewrite String.eqb_refl.
  - apply authenticate_bearer; [apply jwt_not_empty|apply jwt_round_trip].
Qed.

(* ================================================================= *)
(** ** The client's list and the server's *)

Lemma filter_owner_map (g : Task.row -> Task.row) (uid : string)
  (l : list Task.row) :
  (forall r, Task.userId (g r) = Task.userId r) ->
  filter (fun r => Sql.eq_text (Task.userId r) uid) (map g l)
  = map g (filter (fun r => Sql.eq_text (Task.userId r) uid) l).
Proof.
  intros H. induction l as [|r l IH]; simpl; [reflexivity|].
  rewrite H. destruct (Sql.eq_text (Task.userId r) uid); simpl;
    now rewrite IH.
Qed.

Lemma task_key_same (l : list Task.row) (r1 r2 : Task.row) (i : string) :
  NoDup (task_keys l) -> In r1 l -> In r2 l ->
  Task.id r1 = Some i -> Task.id r2 = Some i -> r1 = r2.
Proof.
  induction l as [|a l IH]; simpl; intros Hn H1 H2 E1 E2; [destruct H1|].
  unfold task_keys in Hn. simpl in Hn. fold (task_keys l) in Hn.
  assert (Hin : forall r, In r l -> Task.id r = Some i -> In i (task_keys l)).
  { intros r Hr Er. unfold task_keys. apply in_flat_map.
    exists r. split; [exact Hr|]. rewrite Er. now left. }
  destruct H1 as [->|H1], H2 as [->|H2]; trivial.
  - rewrite E1 in Hn. inversion Hn as [|? ? Hi _]; subst.
    destruct Hi. now apply (Hin r2).
  - rewrite E2 in Hn. inversion Hn as [|? ? Hi _]; subst.
    destruct Hi. now apply (Hin r1).
  - apply IH; trivial. eapply NoDup_app_remove_l. exact Hn.
Qed.

Lemma select_tasks_update (c : Z) (id uid : string) (st : store) :
  Permutation
    (select_tasks uid (update_completed c id uid st))
    (map (fun r => if owned_by id uid r then Task.set_completed c r else r)
         (select_tasks uid st)).
Proof.
  unfold select_tasks, update_completed. simpl.
  rewrite filter_owner_map by (intros r; now destruct (owned_by id uid r)).
  rewrite order_by_perm. apply Permutation_map. symmetry. apply order_by_perm.
Qed.

Lemma has_id_some (id : string) (j : Task.json) :
  Client.has_id (Some id) (Client.of_json j) = Sql.eq_text (Task.j_id j) id.
Proof.
  unfold Client.has_id. simpl. now destruct (Task.j_id j).
Qed.

(** X15 (toggle: the client agrees with the server).  Let the client hold
    the list the server gave for [uid], let no two stored tasks share an id,
    and let [toggleTodo] be called with the id of a todo that has one, made
    of letters and digits, and send [completed] to [/api/tasks/<id>].  Then
    the list the client sets on the ok response holds the same todos, with
    the same flags, as the list the server would give next.  (For a todo
    whose id is [null] the request goes to [/api/tasks/null] and the two
    lists part.) *)
Theorem toggle_agrees (req : request) (uid id : string) (c : bool)
  (st : store) :
  authenticate req = Authenticated uid ->
  task_ids_unique st ->
  Client.plain id = true ->
  Client.toggleTodo_completed (Some id) (fetched uid st) = Some c ->
  Permutation
    (Client.toggleTodo_state (Some id) (fetched uid st))
    (fetched uid
       (store_of (put_task req (Client.param_of (Some id)) c st))).
Proof.
  intros Ha Hn _ Hc. simpl Client.param_of. as_user Ha. unfold fetched.
  rewrite (select_tasks_update (if c then 1 else 0) id uid st).
  unfold Client.toggleTodo_state. rewrite !map_map.
  match goal with |- Permutation ?l ?l' => assert (E : l = l') end;
    [|rewrite E; reflexivity].
  apply map_ext_in. intros r Hr. apply select_tasks_in in Hr.
  destruct Hr as [Hr Hu].
  rewrite has_id_some. unfold owned_by. simpl.
  rewrite Hu. simpl. rewrite String.eqb_refl, andb_true_r.
  destruct (Sql.eq_text (Task.id r) id) eqn:Er; [|reflexivity].
  unfold Client.toggleTodo_completed, fetched in Hc. rewrite map_map in Hc.
  destruct (find _ _) as [t|] eqn:F; [|discriminate].
  injection Hc as <-.
  apply find_some in F. destruct F as [Ht Et].
  apply in_map_iff in Ht. destruct Ht as [r0 [<- Hr0]].
  apply select_tasks_in in Hr0. destruct Hr0 as [Hr0 _].
  rewrite has_id_some in Et. simpl in Et.
  assert (r0 = r) as ->.
  { unfold Sql.eq_text in Er, Et.
    destruct (Task.id r) as [i|] eqn:Ei; [|discriminate].
    destruct (Task.id r0) as [i0|] eqn:Ei0; [|discriminate].
    apply String.eqb_eq in Er, Et. subst.
    now apply (task_key_same (tasks st) r0 r id). }
  unfold Client.of_json, Client.set_completed, Task.to_json,
    Task.set_completed. simpl.
  now destruct (Task.completed r =? 0).
Qed.

Lemma Permutation_filter_same {A : Type} (f : A -> bool) (l l' : list A) :
  Permutation l l' -> Permutation (filter f l) (filter f l').
Proof.
  induction 1 as [|x l l' _ IH|x y l|l l' l'' _ IH1 _ IH2]; simpl.
  - constructor.
  - destruct (f x); [now constructor|exact IH].
  - destruct (f x), (f y); try reflexivity. apply perm_swap.
  - now transitivity (filter f l').
Qed.

Lemma filter_map_pre {A B : Type} (f : B -> bool) (g : A -> B) (l : list A) :
  filter f (map g l) = map g (filter (fun x => f (g x)) l).
Proof.
  induction l as [|a l IH]; simpl; [reflexivity|].
  destruct (f (g a)); simpl; now rewrite IH.
Qed.

Lemma filter_twice_swap {A : Type} (p q own : A -> bool) (l : list A) :
  (forall x, own x = true -> p x = q x) ->
  filter p (filter own l) = filter own (filter q l).
Proof.
  intros H. induction l as [|a l IH]; simpl; [reflexivity|].
  destruct (own a) eqn:Eo; simpl.
  - rewrite (H a Eo). destruct (q a); simpl; rewrite ?Eo; now rewrite IH.
  - destruct (q a); simpl; rewrite ?Eo; exact IH.
Qed.

(** X16 (delete: the client agrees with the server).  Let the client hold
    the list the server gave for [uid], and let [deleteTodo] be called with
    the id of a todo that has one, made of letters and digits.  After the
    delete of [/api/tasks/<id>], the list the client sets on the ok
    response, the todos with another id or none, holds the same todos as
    the list the server would give next.  (For a todo whose id is [null]
    the client drops every todo without id and the server deletes the tasks
    with id "null".) *)
Theorem delete_agrees (req : request) (uid id : string) (st : store) :
  authenticate req = Authenticated uid ->
  Client.plain id = true ->
  Permutation
    (Client.deleteTodo_state (Some id) (fetched uid st))
    (fetched uid (store_of (delete_task req (Client.param_of (Some id)) st))).
Proof.
  intros Ha _. simpl Client.param_of. as_user Ha.
  unfold fetched, Client.deleteTodo_state.
  rewrite !map_map, filter_map_pre.
  apply Permutation_map. unfold select_tasks, delete_from_tasks. simpl.
  rewrite (order_by_perm Task.dueDate
             (filter _ (filter _ (tasks st)))).
  rewrite <- (filter_twice_swap
                (fun r => negb (Client.has_id (Some id)
                                  (Client.of_json (Task.to_json r))))).
  - apply Permutation_filter_same. apply order_by_perm.
  - intros r Hr. rewrite has_id_some. unfold owned_by. simpl.
    now rewrite Hr, andb_true_r.
Qed.

(** X24 (what a submitted form stores).  When the task the form built is
    created, the store gains one row: the text as typed, [completed] 0, the
    due date NULL when the date field is empty, and the contact the empty
    string when the reminder kind is "none", whatever the contact field
    holds. *)
Theorem addTodo_stored (req : request) (uid : string) (f : Client.form)
  (st : store) :
  authenticate req = Authenticated uid ->
  outcome_of
    (post_tasks req
       (scalar_body (Client.body_of_todo (Client.todo_of_form f))) st)
  = Responded 200 SuccessBody ->
  tasks
    (store_of
       (post_tasks req
          (scalar_body (Client.body_of_todo (Client.todo_of_form f))) st))
  = (tasks st ++
     [Task.Row (Some (Client.f_id f)) (Some uid) (Client.f_newTodo f) 0
        (Some (Client.f_priority f))
        (if (Client.f_dueDate f =? "")%string then None
         else Some (Client.f_dueDate f))
        (Client.f_googleEventId f)
        (Some (if (Client.f_reminderType f =? "")%string then "none"
               else Client.f_reminderType f))
        (Some (if (Client.f_reminderTiming f =? "")%string then "1h"
               else Client.f_reminderTiming f))
        (Some (if (Client.f_reminderType f =? "none")%string then ""
               else Client.f_contactInfo f))])%list.
Proof.
  intros Ha Hok.
  rewrite (post_tasks_store req uid (Client.f_newTodo f)
             (Client.body_of_todo (Client.todo_of_form f)) st Ha eq_refl
             Hok).
  simpl.
  unfold JS.or_default, JS.truthy.
  destruct (Client.f_dueDate f =? "")%string,
    (Client.f_reminderType f =? "")%string,
    (Client.f_reminderTiming f =? "")%string,
    (Client.f_reminderType f =? "none")%string; simpl; trivial;
    destruct (Client.f_contactInfo f =? "")%string eqn:E; simpl; trivial;
    apply String.eqb_eq in E; now rewrite E.
Qed.

(* ================================================================= *)
(** ** What the requests of others cannot do *)







Lemma select_user_by_id_same (uid : string) (st st' : store) :
  users st' = users st ->
  select_user_by_id uid st' = select_user_by_id uid st.
Proof. unfold select_user_by_id. now intros ->. Qed.

Lemma select_user_by_id_map (g : User.row -> User.row) (uid : string)
  (st : store) (u : User.row) :
  (forall v, User.id (g v) = User.id v) ->
  (forall v, User.id v = uid -> g v = v) ->
  select_user_by_id uid st = Some u ->
  select_user_by_id uid (with_users st (map g (users st))) = Some u.
Proof.
  intros Hid Hfix. unfold select_user_by_id. simpl.
  rewrite find_map_same_key by (intros v; now rewrite Hid).
  intros F. rewrite F. simpl. f_equal. apply Hfix.
  apply find_some in F. destruct F as [_ F]. now apply String.eqb_eq in F.
Qed.

Lemma select_user_by_id_authenticated (req : request) (st : store)
  (uid : string) (u : User.row) (handler : string -> outcome * store) :
  select_user_by_id uid st = Some u ->
  (forall uid', authenticate req = Authenticated uid' ->
                select_user_by_id uid (snd (handler uid')) = Some u) ->
  select_user_by_id uid (store_of (authenticated req st handler)) = Some u.
Proof.
  intros Hu H. unfold authenticated.
  destruct (authenticate req) as [uid'|status b]; [|exact Hu].
  specialize (H uid' eq_refl). now destruct (handler uid').
Qed.

Lemma row_kept_by_serve (req : request) (c : call) (st : store)
  (uid : string) (u : User.row) :
  select_user_by_id uid st = Some u ->
  is_premium uid st = false ->
  ~ pays uid (req, c) ->
  select_user_by_id uid (store_of (serve req c st)) = Some u.
Proof.
  intros Hu Hp Hn.
  destruct c as [e n em pw|e em pw| | |b|id cp|id|b|]; simpl.
  - unfold register.
    destruct (JS.falsy em || JS.falsy pw || JS.falsy n); [exact Hu|].
    unfold insert_into_users.
    destruct (user_id_taken _ st); [exact Hu|].
    destruct (email_taken _ st); [exact Hu|].
    unfold select_user_by_id in *. simpl. now apply find_app_found.
  - unfold login. destruct (select_user_by_email em st); [|exact Hu].
    destruct pw; [|exact Hu]. now destruct (bcrypt_compare _ _).
  - exact Hu.
  - now apply select_user_by_id_authenticated.
  - apply select_user_by_id_authenticated; [exact Hu|]. intros uid' _.
    destruct (task_params_of uid' b) as [p|err]; [|exact Hu].
    unfold insert_into_tasks.
    destruct (p_text _); [|exact Hu].
    destruct (task_id_taken _ st); [exact Hu|].
    now destruct (owner_missing _ st).
  - now apply select_user_by_id_authenticated.
  - now apply select_user_by_id_authenticated.
  - apply select_user_by_id_authenticated; [exact Hu|]. intros uid' _.
    destruct (is_premium uid' st) eqn:Hp'; simpl; [|exact Hu].
    unfold update_branding. apply select_user_by_id_map; [| |exact Hu].
    + intros v. now destruct (User.id v =? uid')%string.
    + intros v Hv. destruct (User.id v =? uid')%string eqn:E; [|reflexivity].
      apply String.eqb_eq in E. congruence.
  - apply select_user_by_id_authenticated; [exact Hu|]. intros uid' Ha.
    simpl. unfold update_premium. apply select_user_by_id_map; [| |exact Hu].
    + intros v. now destruct (User.id v =? uid')%string.
    + intros v Hv. destruct (User.id v =? uid')%string eqn:E; [|reflexivity].
      apply String.eqb_eq in E. destruct Hn. split; [reflexivity|].
      simpl. congruence.
Qed.

Lemma is_premium_of_row (uid : string) (st st' : store) :
  select_user_by_id uid st' = select_user_by_id uid st ->
  is_premium uid st' = is_premium uid st.
Proof.
  unfold is_premium, select_user_by_id. now intros ->.
Qed.

(** X26 (no payment, no change).  The row of a stored user who is not
    premium stays as it is, every column of it, over any sequence of
    requests that holds no payment confirmation of that user: without
    paying, nobody's requests change the user's credentials, premium flag or
    branding. *)
Theorem row_kept_without_payment (rs : list (request * call)) (st : store)
  (uid : string) (u : User.row) :
  select_user_by_id uid st = Some u ->
  is_premium uid st = false ->
  Forall (fun rc => ~ pays uid rc) rs ->
  select_user_by_id uid (serve_all rs st) = Some u.
Proof.
  revert st. induction rs as [|[req c] rs IH]; intros st Hu Hp H; simpl.
  - exact Hu.
  - inversion H as [|? ? Hrc Hrs]; subst.
    assert (Hu' := row_kept_by_serve req c st uid u Hu Hp Hrc).
    apply IH; trivial.
    rewrite <- Hp. apply is_premium_of_row. now rewrite Hu'.
Qed.

End Server.

(* ================================================================= *)
(** ** The small instance at work *)

Lemma length_append (s p : string) :
  String.length (s ++ p) = (String.length s + String.length p)%nat.
Proof. induction s as [|c s IH]; simpl; [reflexivity|now rewrite IH]. Qed.

Lemma demo_bcrypt_accepts (password s : string) :
  Demo.bcrypt_compare password (Demo.bcrypt_hash password s) = true.
Proof.
  unfold Demo.bcrypt_hash.
  change (Demo.bcrypt_compare password ("$2a$10$" ++ s ++ password))
    with (JS.substring_from
            (String.length (s ++ password) - String.length password)
            (s ++ password) =? password)%string.
  rewrite length_append, Nat.add_sub, substring_from_append.
  apply String.eqb_refl.
Qed.

Lemma demo_jwt_round_trip (uid : string) (t : Z) :
  Demo.jwt_verify (Demo.jwt_sign uid t) = Some uid.
Proof. reflexivity. Qed.

Lemma demo_jwt_not_empty (uid : string) (t : Z) : Demo.jwt_sign uid t <> "".
Proof. discriminate. Qed.


(** Ana completes her first task; Bia's task and the users stay. *)
Lemma put_task_frame_witness :
  authenticate Demo.jwt_verify Demo.as_ana = Authenticated "u1" /\
  outcome_of (put_task Demo.jwt_verify Demo.as_ana "t1" true Demo.st0)
    = Responded 200 SuccessBody /\
  users (store_of (put_task Demo.jwt_verify Demo.as_ana "t1" true Demo.st0))
    = users Demo.st0.
Proof.
  assert (H : authenticate Demo.jwt_verify Demo.as_ana = Authenticated "u1")
    by reflexivity.
  destruct (put_task_frame Demo.jwt_verify Demo.as_ana "u1" "t1" true
              Demo.st0 H) as [Ho [Hu _]].
  split; [exact H|].
  split; [exact Ho|exact Hu].
Defined.

(** Ana deletes Bia's task id: success, and nothing happens. *)
Lemma delete_task_idempotent_witness :
  authenticate Demo.jwt_verify Demo.as_ana = Authenticated "u1" /\
  outcome_of (delete_task Demo.jwt_verify Demo.as_ana "t2" Demo.st0)
    = Responded 200 SuccessBody /\
  store_of (delete_task Demo.jwt_verify Demo.as_ana "t2"
              (store_of (delete_task Demo.jwt_verify Demo.as_ana "t2"
                           Demo.st0)))
    = store_of (delete_task Demo.jwt_verify Demo.as_ana "t2" Demo.st0).
Proof.
  assert (H : authenticate Demo.jwt_verify Demo.as_ana = Authenticated "u1")
    by reflexivity.
  destruct (delete_task_idempotent Demo.jwt_verify Demo.as_ana "u1" "t2"
              Demo.st0 H) as [Ho [_ [_ Hs]]].
  split; [exact H|].
  split; [exact Ho|exact Hs].
Defined.

(** Ana's list: her task without due date, then the dated one; her due
    dates have four-digit years, so this is the order in time. *)
Lemma get_tasks_ordered_witness :
  authenticate Demo.jwt_verify Demo.as_ana = Authenticated "u1" /\
  Forall (fun t => Due.local (Task.dueDate t)) (tasks_of "u1" Demo.st0) /\
  exists ts,
    outcome_of (get_tasks Demo.jwt_verify Demo.as_ana Demo.st0)
      = Responded 200 (TasksBody ts) /\
    Permutation ts (map Task.to_json (tasks_of "u1" Demo.st0)) /\
    StronglySorted
      (fun a b => Due.text_ascending (Task.j_dueDate a) (Task.j_dueDate b))
      ts /\
    StronglySorted
      (fun a b => Due.ascending (Task.j_dueDate a) (Task.j_dueDate b)) ts.
Proof.
  assert (H : authenticate Demo.jwt_verify Demo.as_ana = Authenticated "u1")
    by reflexivity.
  assert (Hl : Forall (fun t => Due.local (Task.dueDate t))
                 (tasks_of "u1" Demo.st0)).
  { repeat constructor. exists Demo.soon. split; reflexivity. }
  split; [exact H|]. split; [exact Hl|].
  destruct (get_tasks_ordered Demo.jwt_verify Demo.as_ana "u1" Demo.st0 H)
    as [ts [Ho [Hp [Hs [_ Hd]]]]].
  exists ts.
  split; [exact Ho|]. split; [exact Hp|]. split; [exact Hs|exact (Hd Hl)].
Defined.

(** C6, where the order of the texts is not the order in time.  Ana has a
    task due on 2 May 2024 and one due on 1 January 10000; both due dates
    are of the form the [datetime-local] field writes.  Her list has the
    task of the year 10000 first, though it is the later one: the text
    ["10000-01-01T00:00"] stands before ["2024-05-02T09:00"], its second
    character being the smaller.  The list is not in ascending order of
    the due dates. *)
Lemma get_tasks_year_10000_first :
  authenticate Demo.jwt_verify Demo.as_ana = Authenticated "u1" /\
  outcome_of (get_tasks Demo.jwt_verify Demo.as_ana Demo.st_far)
  = Responded 200
      (TasksBody [Task.to_json Demo.capsule; Task.to_json Demo.t1]) /\
  Task.dueDate Demo.capsule = Some (Due.print Demo.late) /\
  Task.dueDate Demo.t1 = Some (Due.print Demo.soon) /\
  Due.rank Demo.soon < Due.rank Demo.late /\
  ~ StronglySorted
      (fun a b => Due.ascending (Task.j_dueDate a) (Task.j_dueDate b))
      [Task.to_json Demo.capsule; Task.to_json Demo.t1].
Proof.
  split; [reflexivity|]. split; [reflexivity|]. split; [reflexivity|].
  split; [reflexivity|]. split; [reflexivity|].
  intros Hs. apply StronglySorted_inv in Hs. destruct Hs as [_ Hs].
  apply Forall_inv in Hs. simpl in Hs.
  destruct Hs as [tx [ty [Hx [Hy Hr]]]].
  change "10000-01-01T00:00" with (Due.print Demo.late) in Hx.
  change "2024-05-02T09:00" with (Due.print Demo.soon) in Hy.
  apply print_inj in Hx. apply print_inj in Hy. subst tx ty.
  vm_compute in Hr. apply Hr. reflexivity.
Qed.

(** Ana's list, evaluated. *)
Example get_tasks_ana :
  outcome_of (get_tasks Demo.jwt_verify Demo.as_ana Demo.st0)
  = Responded 200
      (TasksBody [Task.to_json Demo.t3; Task.to_json Demo.t1]).
Proof. reflexivity. Qed.

(** Ana creates a task with every field and finds it in her list. *)
Lemma post_then_get_tasks_witness :
  exists ts,
    outcome_of
      (get_tasks Demo.jwt_verify Demo.as_ana
         (store_of
            (post_tasks Demo.jwt_verify Demo.as_ana
               (scalar_body
                  (TaskBody (Some "t9") (Some "water plants") (Some "low")
                     (Some "2024-06-01T08:00") (Some "ev1") (Some "email")
                     (Some "24h") (Some "ana@x.com")))
               Demo.st0)))
    = Responded 200 (TasksBody ts) /\
    In (Task.Json (Some "t9") (Some "u1") "water plants" false (Some "low")
          (Some "2024-06-01T08:00") (Some "ev1") (Some "email") (Some "24h")
          (Some "ana@x.com"))
       ts.
Proof.
  apply (post_then_get_tasks Demo.jwt_verify Demo.as_ana "u1" Demo.st0
           "t9" "water plants" "low" "2024-06-01T08:00" "ev1" "email" "24h"
           "ana@x.com").
  - reflexivity.
  - reflexivity.
Defined.

(** C7 as stated fails when a reminder field is supplied as the empty
    string: the task is created, but the list gives it back with the
    reminder kind "none", not the empty kind that was supplied. *)
Lemma post_then_get_tasks_empty_reminder :
  let b := TaskBody (Some "t9") (Some "water plants") (Some "low")
             (Some "2024-06-01T08:00") (Some "ev1") (Some "") (Some "24h")
             (Some "ana@x.com") in
  let r := post_tasks Demo.jwt_verify Demo.as_ana (scalar_body b)
             Demo.st0 in
  outcome_of r = Responded 200 SuccessBody /\
  exists ts,
    outcome_of (get_tasks Demo.jwt_verify Demo.as_ana (store_of r))
      = Responded 200 (TasksBody ts) /\
    ~ In (Task.Json (Some "t9") (Some "u1") "water plants" false (Some "low")
            (Some "2024-06-01T08:00") (Some "ev1") (Some "") (Some "24h")
            (Some "ana@x.com"))
         ts /\
    In (Task.Json (Some "t9") (Some "u1") "water plants" false (Some "low")
          (Some "2024-06-01T08:00") (Some "ev1") (Some "none") (Some "24h")
          (Some "ana@x.com"))
       ts.
Proof.
  simpl. split; [reflexivity|].
  eexists. split; [reflexivity|]. split.
  - intros [H|[H|[H|[]]]]; discriminate H.
  - simpl. auto.
Qed.

(** The header "Bearer", as a client's "Bearer " with an empty token
    arrives: the session token decides. *)
Lemma authenticate_priority_witness :
  Http.received (Request (Some "Bearer") (Some "jwt.u1")) = true /\
  authenticate Demo.jwt_verify (Request (Some "Bearer") (Some "jwt.u1"))
  = spec_authenticate Demo.jwt_verify
      (Request (Some "Bearer") (Some "jwt.u1")) /\
  spec_authenticate Demo.jwt_verify (Request (Some "Bearer") (Some "jwt.u1"))
  = Authenticated "u1".
Proof.
  split; [reflexivity|]. split; [|reflexivity].
  apply (authenticate_priority Demo.jwt_verify
           (Request (Some "Bearer") (Some "jwt.u1"))).
  reflexivity.
Defined.

(** C10 fails when the password is left out.  For Ana's email the route
    hands [undefined] to [bcrypt.compare], whose error leaves the handler
    with no response; for an email no user has it answers 401.  The caller
    tells a registered email from an unregistered one. *)
Example login_without_password_tells :
  outcome_of
    (login Demo.bcrypt_compare Demo.jwt_sign Demo.env0 Demo.anonymous
       (Some "ana@x.com") None Demo.st0)
  = Uncaught (Error "Illegal arguments: undefined, string") /\
  outcome_of
    (login Demo.bcrypt_compare Demo.jwt_sign Demo.env0 Demo.anonymous
       (Some "zed@x.com") None Demo.st0)
  = Responded 401 (ErrorBody "Credenciais inválidas").
Proof. split; reflexivity. Qed.

(** An unknown email and Ana's email with a wrong password: one answer. *)
Lemma login_failure_generic_witness :
  outcome_of
    (login Demo.bcrypt_compare Demo.jwt_sign Demo.env0 Demo.as_bia
       (Some "ana@x.com") (Some "wrong") Demo.st0)
  = outcome_of
      (login Demo.bcrypt_compare Demo.jwt_sign Demo.env0 Demo.anonymous
         (Some "zed@x.com") (Some "secret") Demo.st0).
Proof.
  apply (login_failure_generic Demo.bcrypt_compare Demo.jwt_sign Demo.env0
           Demo.env0 Demo.anonymous Demo.as_bia Demo.st0 "zed@x.com"
           "ana@x.com" "wrong" (Some "secret") Demo.ana).
  - reflexivity.
  - reflexivity.
  - reflexivity.
Defined.

(** A second registration under Ana's email: 400, and the store stays. *)
Lemma register_rejected_witness :
  email_taken "ana@x.com" Demo.st0 = true /\
  register Demo.bcrypt_hash Demo.jwt_sign Demo.env0 Demo.anonymous
    (Some "Ana Two") (Some "ana@x.com") (Some "other") Demo.st0
  = Reply (Responded 400 (ErrorBody "Email já cadastrado")) Demo.st0 None.
Proof.
  split; [reflexivity|].
  apply (register_rejected Demo.bcrypt_hash Demo.jwt_sign Demo.env0
           Demo.anonymous (Some "Ana Two") (Some "ana@x.com") (Some "other")
           Demo.st0).
  right. right. right. exists "ana@x.com". split; reflexivity.
Defined.

(** Caio registers; after two more requests he logs in. *)
Lemma register_then_login_witness :
  let r := register Demo.bcrypt_hash Demo.jwt_sign Demo.env0 Demo.anonymous
             (Some "Caio") (Some "caio@x.com") (Some "pw3") Demo.st0 in
  let rs := [(Demo.as_ana, DeleteTask "t1"); (Demo.as_bia, ConfirmPayment)] in
  let r' := login Demo.bcrypt_compare Demo.jwt_sign Demo.env0 Demo.anonymous
              (Some "caio@x.com") (Some "pw3")
              (serve_all Demo.bcrypt_hash Demo.bcrypt_compare Demo.jwt_sign
                 Demo.jwt_verify rs (store_of r)) in
  exists token token',
    outcome_of r = Responded 200 (AuthBody "u3" token) /\
    outcome_of r' = Responded 200 (AuthBody "u3" token') /\
    session_of r' = Some token' /\
    Demo.jwt_verify token' = Some "u3" /\
    (forall s,
        authenticate Demo.jwt_verify
          (Request (Some ("Bearer " ++ token')) s) = Authenticated "u3") /\
    authenticate Demo.jwt_verify (Request None (session_of r'))
      = Authenticated "u3".
Proof.
  apply (register_then_login Demo.bcrypt_hash Demo.bcrypt_compare
           Demo.jwt_sign Demo.jwt_verify demo_bcrypt_accepts
           demo_jwt_round_trip demo_jwt_not_empty Demo.env0 Demo.env0
           Demo.anonymous Demo.anonymous "Caio" "caio@x.com" "pw3" Demo.st0
           [(Demo.as_ana, DeleteTask "t1"); (Demo.as_bia, ConfirmPayment)]).
  - discriminate.
  - discriminate.
  - discriminate.
  - reflexivity.
  - reflexivity.
Defined.

(** C5 fails on the task route.  Bia posts a task under the id of a stored
    task: the INSERT throws, [POST /api/tasks] has no [try] around it, and
    the error leaves the handler instead of becoming a JSON error body. *)
Example post_tasks_error_escapes :
  post_tasks Demo.jwt_verify Demo.as_bia
    (scalar_body
       (TaskBody (Some "t1") (Some "water plants") (Some "low") None None
          None None None))
    Demo.st0
  = Reply (Uncaught (Error "UNIQUE constraint failed: tasks.id")) Demo.st0
          None.
Proof. reflexivity. Qed.

(** The registration route, next to it, catches the same kind of error. *)
Example register_error_caught :
  outcome_of
    (register Demo.bcrypt_hash Demo.jwt_sign Demo.env0 Demo.anonymous
       (Some "Bia Two") (Some "bia@x.com") (Some "pw") Demo.st0)
  = Responded 400 (ErrorBody "Email já cadastrado").
Proof. reflexivity. Qed.

(* ================================================================= *)
(** ** Properties of the client *)

(** *** The order of display *)

Lemma sort_insert_perm (a : Client.todo) (l : list Client.todo) :
  Permutation (Client.sort_insert a l) (a :: l).
Proof.
  induction l as [|b l IH]; simpl; [reflexivity|].
  destruct (Client.stays_before a b); [reflexivity|].
  rewrite IH. apply perm_swap.
Qed.

Lemma sortedTodos_perm (l : list Client.todo) :
  Permutation (Client.sortedTodos l) l.
Proof.
  induction l as [|a l IH]; simpl; [reflexivity|].
  rewrite sort_insert_perm. now constructor.
Qed.

Lemma stays_before_shown (a b : Client.todo) :
  Client.priorityMap (Client.priority a) <> None ->
  Client.priorityMap (Client.priority b) <> None ->
  Client.stays_before a b = true <-> Client.shown_before a b.
Proof.
  unfold Client.stays_before, Client.compareTodos, Client.shown_before.
  intros Ha Hb.
  destruct (Client.priorityMap (Client.priority a)) as [x|]; [|congruence].
  destruct (Client.priorityMap (Client.priority b)) as [y|]; [|congruence].
  destruct (Client.completed a), (Client.completed b); simpl;
    rewrite ?Z.leb_le; split.
  - intros H. right. split; [reflexivity|]. exists x, y. repeat split. lia.
  - intros [[H _]|[_ [x' [y' [[= <-] [[= <-] H]]]]]]; [discriminate|lia].
  - lia.
  - intros [[H _]|[H _]]; discriminate.
  - intros _. left. now split.
  - lia.
  - intros H. right. split; [reflexivity|]. exists x, y. repeat split. lia.
  - intros [[_ H]|[_ [x' [y' [[= <-] [[= <-] H]]]]]]; [discriminate|lia].
Qed.

Lemma stays_before_total (a b : Client.todo) :
  Client.stays_before a b = false -> Client.stays_before b a = true.
Proof.
  unfold Client.stays_before, Client.compareTodos.
  destruct (Client.priorityMap (Client.priority a)) as [x|],
    (Client.priorityMap (Client.priority b)) as [y|],
    (Client.completed a), (Client.completed b); simpl;
    try discriminate; try reflexivity;
    rewrite Z.leb_gt, Z.leb_le; lia.
Qed.

Lemma shown_before_trans (a b c : Client.todo) :
  Client.shown_before a b -> Client.shown_before b c ->
  Client.shown_before a c.
Proof.
  unfold Client.shown_before.
  intros [[Ha Hb]|[Hab [x [y [Hx [Hy Hxy]]]]]]
         [[Hb' Hc]|[Hbc [y' [z [Hy' [Hz Hyz]]]]]].
  - congruence.
  - left. split; congruence.
  - left. split; congruence.
  - right. split; [congruence|]. exists x, z.
    rewrite Hy in Hy'. injection Hy' as <-. repeat split; trivial. lia.
Qed.

Lemma sort_insert_sorted (a : Client.todo) (l : list Client.todo) :
  Client.priorityMap (Client.priority a) <> None ->
  Forall (fun t => Client.priorityMap (Client.priority t) <> None) l ->
  StronglySorted Client.shown_before l ->
  StronglySorted Client.shown_before (Client.sort_insert a l).
Proof.
  intros Ha Hv Hs. induction Hs as [|b l Hl IH Hb]; simpl.
  - repeat constructor.
  - inversion Hv as [|? ? Hvb Hvl]; subst.
    destruct (Client.stays_before a b) eqn:E.
    + apply stays_before_shown in E; trivial.
      constructor; [now constructor|].
      constructor; [exact E|].
      eapply Forall_impl; [|exact Hb].
      intros c Hc. eapply shown_before_trans; eassumption.
    + constructor; [now apply IH|].
      eapply Permutation_Forall; [symmetry; apply sort_insert_perm|].
      constructor; [|exact Hb].
      apply stays_before_shown; trivial. now apply stays_before_total.
Qed.

(** X19 (the order of display).  [sortedTodos] holds the same todos as the
    state; when every priority is "high", "medium" or "low", each todo
    stands before all later ones in the order of display: the open todos
    first, and among todos of one completion high before medium before
    low. *)
Theorem sortedTodos_ordered (todos : list Client.todo) :
  Forall (fun t => Client.priorityMap (Client.priority t) <> None) todos ->
  Permutation (Client.sortedTodos todos) todos /\
  StronglySorted Client.shown_before (Client.sortedTodos todos).
Proof.
  intros Hv. split; [apply sortedTodos_perm|].
  induction todos as [|a l IH]; simpl; [constructor|].
  inversion Hv as [|? ? Ha Hl]; subst.
  apply sort_insert_sorted; trivial; [|now apply IH].
  eapply Permutation_Forall; [symmetry; apply sortedTodos_perm|exact Hl].
Qed.

Lemma in_group_tie (c : bool) (x : Z) (a b : Client.todo) :
  Client.in_group c x a = true -> Client.in_group c x b = true ->
  Client.stays_before a b = true.
Proof.
  unfold Client.in_group, Client.stays_before, Client.compareTodos.
  destruct (Client.priorityMap (Client.priority a)) as [y|],
    (Client.priorityMap (Client.priority b)) as [z|],
    (Client.completed a), (Client.completed b), c; simpl;
    try discriminate; try reflexivity;
    rewrite !Z.eqb_eq, Z.leb_le; lia.
Qed.

Lemma sort_insert_group (c : bool) (x : Z) (a : Client.todo)
  (l : list Client.todo) :
  filter (Client.in_group c x) (Client.sort_insert a l)
  = filter (Client.in_group c x) (a :: l).
Proof.
  induction l as [|b l IH]; simpl; [reflexivity|].
  destruct (Client.stays_before a b) eqn:E; [reflexivity|].
  simpl in *. rewrite IH.
  destruct (Client.in_group c x a) eqn:Ea; [|reflexivity].
  destruct (Client.in_group c x b) eqn:Eb; [|reflexivity].
  rewrite (in_group_tie c x a b Ea Eb) in E. discriminate.
Qed.

(** X20 (the sort is stable).  When every priority is "high", "medium" or
    "low", todos of one completion and one priority keep, in [sortedTodos],
    the order they have in the state. *)
Theorem sortedTodos_stable (c : bool) (x : Z) (todos : list Client.todo) :
  Forall (fun t => Client.priorityMap (Client.priority t) <> None) todos ->
  filter (Client.in_group c x) (Client.sortedTodos todos)
  = filter (Client.in_group c x) todos.
Proof.
  intros _. induction todos as [|a l IH]; simpl; [reflexivity|].
  rewrite sort_insert_group. simpl. now rewrite IH.
Qed.


(** *** The reminder check *)

Lemma same_id_refl (x : option string) : Client.same_id x x = true.
Proof. destruct x; simpl; [apply String.eqb_refl|reflexivity]. Qed.

Lemma same_id_eq (x y : option string) : Client.same_id x y = true -> x = y.
Proof.
  destruct x, y; simpl; try discriminate; trivial.
  intros H. apply String.eqb_eq in H. now subst.
Qed.

Lemma has_in (s : list (option string)) (x : option string) :
  Client.has s x = true <-> In x s.
Proof.
  unfold Client.has. rewrite existsb_exists. split.
  - intros [y [Hy E]]. apply same_id_eq in E. now subst.
  - intros H. exists x. split; [exact H|apply same_id_refl].
Qed.

Lemma add_in (s : list (option string)) (x y : option string) :
  In y (Client.add s x) <-> In y s \/ y = x.
Proof.
  unfold Client.add. destruct (Client.has s x) eqn:E.
  - apply has_in in E. split; [auto|]. intros [H| ->]; trivial.
  - rewrite in_app_iff. simpl. split.
    + intros [H|[H|[]]]; auto.
    + intros [H|H]; auto.
Qed.

Lemma fold_add_in (xs s : list (option string)) (y : option string) :
  In y (fold_left Client.add xs s) <-> In y s \/ In y xs.
Proof.
  revert s. induction xs as [|x xs IH]; intros s; simpl.
  - split; [auto|]. now intros [H|[]].
  - rewrite IH, add_in. split.
    + intros [[H|H]|H]; auto.
    + intros [H|[H|H]]; auto.
Qed.

Lemma notified_unseen (parse : string -> option Z) (now : Z)
  (seen : list (option string)) (todos : list Client.todo)
  (t : Client.todo) :
  In t (fst (Client.checkUpcomingTasks parse now seen todos)) ->
  ~ In (Client.id t) seen.
Proof.
  unfold Client.checkUpcomingTasks. simpl. rewrite filter_In.
  unfold Client.notifies. intros [_ H] Hs. apply has_in in Hs.
  rewrite Hs, !orb_true_r in H. discriminate.
Qed.

Lemma seen_after (parse : string -> option Z) (now : Z)
  (seen : list (option string)) (todos : list Client.todo)
  (x : option string) :
  In x (snd (Client.checkUpcomingTasks parse now seen todos)) <->
  In x seen \/
  exists t, In t (fst (Client.checkUpcomingTasks parse now seen todos)) /\
            Client.id t = x.
Proof.
  unfold Client.checkUpcomingTasks. simpl.
  rewrite fold_add_in, in_map_iff.
  split; (intros [H|[t [H1 H2]]]; [now left|right; exists t; now split]).
Qed.

(** X22 (who is reminded).  A pass of the reminder check at time [now]
    notifies exactly the todos of the state that are open, carry a due date
    that parses to a time after [now] and at most ten minutes after it, and
    whose id is not in [notifiedTasks]; afterwards [notifiedTasks] holds what
    it held and the ids of the todos notified, and nothing else. *)
Theorem checkUpcomingTasks_exact (parse : string -> option Z) (now : Z)
  (notifiedTasks : list (option string)) (todos : list Client.todo) :
  let pass := Client.checkUpcomingTasks parse now notifiedTasks todos in
  (forall t,
      In t (fst pass) <->
      In t todos /\ Client.completed t = false /\
      ~ In (Client.id t) notifiedTasks /\
      exists s due,
        Client.dueDate t = Some s /\ s <> "" /\ parse s = Some due /\
        now < due <= now + 600000) /\
  (forall x,
      In x (snd pass) <->
      In x notifiedTasks \/ exists t, In t (fst pass) /\ Client.id t = x).
Proof.
  intros pass. subst pass. unfold Client.checkUpcomingTasks. simpl. split.
  - intros t. rewrite filter_In. unfold Client.notifies.
    destruct (Client.completed t); simpl.
    { split; [intros [_ H]; discriminate|intros [_ [H _]]; discriminate]. }
    destruct (Client.dueDate t) as [s|]; simpl.
    2:{ split; [intros [_ H]; discriminate|].
        intros [_ [_ [_ [s [due [H _]]]]]]. discriminate. }
    unfold JS.truthy. destruct (s =? "")%string eqn:Es; simpl.
    { apply String.eqb_eq in Es.
      split; [intros [_ H]; discriminate|].
      intros [_ [_ [_ [s' [due [[= <-] [H _]]]]]]]. contradiction. }
    apply String.eqb_neq in Es.
    destruct (Client.has notifiedTasks (Client.id t)) eqn:Eh.
    { apply has_in in Eh.
      split; [intros [_ H]; discriminate|].
      intros [_ [_ [H _]]]. contradiction. }
    assert (Hn : ~ In (Client.id t) notifiedTasks).
    { intros H. apply has_in in H. congruence. }
    destruct (parse s) as [due|] eqn:Ep.
    + rewrite andb_true_iff, Z.ltb_lt, Z.leb_le. split.
      * intros [Ht Hd]. repeat split; trivial.
        exists s, due. repeat split; trivial; lia.
      * intros [Ht [_ [_ [s' [due' [[= <-] [_ [Hp Hd]]]]]]]].
        rewrite Ep in Hp. injection Hp as <-. split; [exact Ht|lia].
    + split; [intros [_ H]; discriminate|].
      intros [_ [_ [_ [s' [due' [[= <-] [_ [Hp _]]]]]]]]. congruence.
  - intros x. rewrite fold_add_in, in_map_iff.
    split; (intros [H|[t [H1 H2]]]; [now left|right; exists t; now split]).
Qed.

Lemma checks_not_seen (parse : string -> option Z)
  (passes : list (Z * list Client.todo)) (seen : list (option string)) :
  Forall (fun notified => forall t, In t notified -> ~ In (Client.id t) seen)
    (Client.checks parse seen passes).
Proof.
  revert seen. induction passes as [|[now todos] passes IH]; intros seen;
    simpl; constructor.
  - intros t Ht. now apply (notified_unseen parse now seen todos).
  - eapply Forall_impl; [|apply IH].
    intros notified H t Ht Hs. apply (H t Ht).
    apply (seen_after parse now seen todos). now left.
Qed.

(** X23 (at most one reminder).  Over the passes of a session, whatever
    their times and whatever the todos at each, no id is notified in two
    different passes. *)
Theorem checks_at_most_once (parse : string -> option Z)
  (notifiedTasks : list (option string))
  (passes : list (Z * list Client.todo)) :
  ForallOrdPairs
    (fun earlier later =>
       forall t t', In t earlier -> In t' later ->
                    Client.id t <> Client.id t')
    (Client.checks parse notifiedTasks passes).
Proof.
  revert notifiedTasks.
  induction passes as [|[now todos] passes IH]; intros seen; simpl;
    constructor; [|apply IH].
  eapply Forall_impl; [|apply checks_not_seen].
  intros later H t t' Ht Ht' E. apply (H t' Ht').
  apply (seen_after parse now seen todos).
  right. exists t. now split.
Qed.

(* ================================================================= *)
(** ** The small instance, again *)

Lemma demo_users_unique : users_unique Demo.st0.
Proof. split; simpl; distinct. Qed.

Lemma demo_task_ids_unique : task_ids_unique Demo.st0.
Proof. unfold task_ids_unique. simpl. distinct. Qed.

Lemma demo_owners_exist : owners_exist Demo.st0.
Proof. intros t uid [<-|[<-|[<-|[]]]] [= <-]; reflexivity. Qed.

(** A request without a token is turned away from the task list. *)
Lemma rejected_everywhere_witness :
  serve Demo.bcrypt_hash Demo.bcrypt_compare Demo.jwt_sign Demo.jwt_verify
    Demo.anonymous GetTasks Demo.st0
  = Reply (Responded 401 (ErrorBody "Unauthorized")) Demo.st0 None.
Proof.
  apply (rejected_everywhere Demo.bcrypt_hash Demo.bcrypt_compare
           Demo.jwt_sign Demo.jwt_verify Demo.anonymous GetTasks Demo.st0
           401 (ErrorBody "Unauthorized")).
  - reflexivity.
  - reflexivity.
Defined.

(** Three requests on the sample store, one of them a registration under a
    taken email. *)
Lemma users_unique_kept_witness :
  users_unique
    (serve_all Demo.bcrypt_hash Demo.bcrypt_compare Demo.jwt_sign
       Demo.jwt_verify
       [(Demo.anonymous,
         Register Demo.env0 (Some "Caio") (Some "caio@x.com") (Some "pw3"));
        (Demo.anonymous,
         Register Demo.env0 (Some "Ana") (Some "ana@x.com") (Some "pw"));
        (Demo.as_bia, ConfirmPayment)]
       Demo.st0).
Proof.
  apply (users_unique_kept Demo.bcrypt_hash Demo.bcrypt_compare
           Demo.jwt_sign Demo.jwt_verify).
  exact demo_users_unique.
Defined.

Lemma task_ids_unique_kept_witness :
  task_ids_unique
    (serve_all Demo.bcrypt_hash Demo.bcrypt_compare Demo.jwt_sign
       Demo.jwt_verify
       [(Demo.as_bia,
         PostTasks
           (scalar_body
              (TaskBody (Some "t1") (Some "x") None None None None None
                 None)));
        (Demo.as_bia,
         PostTasks
           (scalar_body
              (TaskBody (Some "t4") (Some "y") None None None None None
                 None)));
        (Demo.as_ana, DeleteTask "t3")]
       Demo.st0).
Proof.
  apply (task_ids_unique_kept Demo.bcrypt_hash Demo.bcrypt_compare
           Demo.jwt_sign Demo.jwt_verify).
  exact demo_task_ids_unique.
Defined.

Lemma owners_exist_kept_witness :
  owners_exist
    (serve_all Demo.bcrypt_hash Demo.bcrypt_compare Demo.jwt_sign
       Demo.jwt_verify
       [(Request (Some "Bearer jwt.u9") None,
         PostTasks
           (scalar_body
              (TaskBody (Some "t4") (Some "y") None None None None None
                 None)));
        (Demo.as_bia,
         PostTasks
           (RawBody (JS.Array [Some "x9"; Some "u7"]) (JS.Array [])
              (JS.Scalar None) (JS.Scalar None) (JS.Scalar None)
              (JS.Scalar None) (JS.Scalar None) (JS.Scalar None)));
        (Demo.as_ana, PutTask "t1" true)]
       Demo.st0).
Proof.
  apply (owners_exist_kept Demo.bcrypt_hash Demo.bcrypt_compare
           Demo.jwt_sign Demo.jwt_verify).
  exact demo_owners_exist.
Defined.

(** Bia pays; two requests later she is still premium. *)
Lemma premium_kept_witness :
  is_premium "u2"
    (serve_all Demo.bcrypt_hash Demo.bcrypt_compare Demo.jwt_sign
       Demo.jwt_verify
       [(Demo.as_bia, PutBranding (BrandingBody (Some "B") None None None));
        (Demo.as_ana, ConfirmPayment)]
       (store_of (confirm_payment Demo.jwt_verify Demo.as_bia Demo.st0)))
  = true.
Proof.
  apply (premium_kept Demo.bcrypt_hash Demo.bcrypt_compare Demo.jwt_sign
           Demo.jwt_verify).
  reflexivity.
Defined.

(** Ana has not paid: no branding. *)
Lemma branding_forbidden_witness :
  outcome_of
    (put_branding Demo.jwt_verify Demo.as_ana
       (BrandingBody (Some "Ana Ltd") None (Some "#112233") None) Demo.st0)
  = Responded 403
      (ErrorBody "Esta funcionalidade é exclusiva para usuários Premium.").
Proof.
  rewrite (branding_forbidden Demo.jwt_verify Demo.as_ana "u1"
             (BrandingBody (Some "Ana Ltd") None (Some "#112233") None)
             Demo.st0); reflexivity.
Defined.

Lemma confirm_payment_frame_witness :
  tasks (store_of (confirm_payment Demo.jwt_verify Demo.as_ana Demo.st0))
  = tasks Demo.st0.
Proof.
  destruct (confirm_payment_frame Demo.jwt_verify Demo.as_ana "u1" Demo.st0
              eq_refl) as [_ [H _]].
  exact H.
Defined.

(** Ana pays, then brands. *)
Lemma payment_then_branding_witness :
  outcome_of
    (put_branding Demo.jwt_verify Demo.as_ana
       (BrandingBody (Some "Ana Ltd") None (Some "#112233") None)
       (store_of (confirm_payment Demo.jwt_verify Demo.as_ana Demo.st0)))
  = Responded 200 SuccessBody.
Proof.
  destruct (payment_then_branding Demo.jwt_verify Demo.as_ana Demo.as_ana
              "u1" (BrandingBody (Some "Ana Ltd") None (Some "#112233") None)
              Demo.st0 eq_refl eq_refl eq_refl) as [H _].
  exact H.
Defined.

(** Ana logs in and asks for her status. *)
Lemma login_then_status_witness :
  exists p,
    (forall s,
        get_status Demo.jwt_verify (Request (Some "Bearer jwt.u1") s)
          Demo.st0 = IsAuthenticated p) /\
    pr_id p = "u1" /\ pr_email p = "ana@x.com".
Proof.
  destruct (login_then_status Demo.bcrypt_compare Demo.jwt_sign
              Demo.jwt_verify demo_jwt_round_trip demo_jwt_not_empty
              Demo.env0 Demo.anonymous "ana@x.com" "secret" "u1" "jwt.u1"
              Demo.st0 (proj1 demo_users_unique) eq_refl)
    as [p [Hb [_ [Hi He]]]].
  exists p. split; [exact Hb|]. split; [exact Hi|exact He].
Defined.

(** Bia pays and brands; her status shows the brand. *)
Lemma branding_then_status_witness :
  let st1 := store_of (confirm_payment Demo.jwt_verify Demo.as_bia Demo.st0) in
  let b := BrandingBody (Some "Bia Co") None (Some "#000000") None in
  exists p,
    get_status Demo.jwt_verify Demo.as_bia
      (store_of (put_branding Demo.jwt_verify Demo.as_bia b st1))
    = IsAuthenticated p /\
    pr_brandName p = Some "Bia Co".
Proof.
  intros st1 b.
  destruct (branding_then_status Demo.jwt_verify Demo.as_bia Demo.as_bia
              "u2" b st1 eq_refl eq_refl eq_refl)
    as [p [Hs [_ [_ [Hb _]]]]].
  exists p. split; [exact Hs|exact Hb].
Defined.

Lemma logout_keeps_bearer_witness :
  authenticate Demo.jwt_verify
    (Request (Some ("Bearer " ++ "jwt.u1"))
       (session_of (logout Demo.as_ana Demo.st0)))
  = Authenticated "u1".
Proof.
  assert (H : "jwt.u1" <> "") by discriminate.
  destruct (logout_keeps_bearer Demo.jwt_verify Demo.as_ana Demo.st0
              "jwt.u1" "u1" H eq_refl) as [_ [_ [_ Hb]]].
  exact Hb.
Defined.

(** Bia cannot take the id of Ana's task. *)
Lemma post_tasks_exact_witness :
  store_of
    (post_tasks Demo.jwt_verify Demo.as_bia
       (scalar_body
          (TaskBody (Some "t1") (Some "x") None None None None None None))
       Demo.st0)
  = Demo.st0.
Proof.
  destruct (post_tasks_exact Demo.jwt_verify Demo.as_bia "u2"
              (TaskBody (Some "t1") (Some "x") None None None None None None)
              Demo.st0 eq_refl) as [_ [_ H]].
  apply H. discriminate.
Defined.

Lemma post_then_delete_witness :
  store_of
    (delete_task Demo.jwt_verify Demo.as_ana "t9"
       (store_of
          (post_tasks Demo.jwt_verify Demo.as_ana
             (scalar_body
                (TaskBody (Some "t9") (Some "x") None None None None None
                   None))
             Demo.st0)))
  = Demo.st0.
Proof.
  apply (post_then_delete Demo.jwt_verify Demo.as_ana "u1" "t9"
           (TaskBody (Some "t9") (Some "x") None None None None None None)
           Demo.st0); reflexivity.
Defined.

Lemma get_tasks_after_post_witness :
  let b := TaskBody (Some "t9") (Some "x") None None None None None None in
  exists ts ts',
    outcome_of (get_tasks Demo.jwt_verify Demo.as_ana Demo.st0)
      = Responded 200 (TasksBody ts) /\
    outcome_of
      (get_tasks Demo.jwt_verify Demo.as_ana
         (store_of
            (post_tasks Demo.jwt_verify Demo.as_ana (scalar_body b)
               Demo.st0)))
      = Responded 200 (TasksBody ts') /\
    Permutation ts'
      (Task.Json (Some "t9") (Some "u1") "x" false None None None
         (Some "none") (Some "1h") (Some "")
       :: ts).
Proof.
  intros b.
  apply (get_tasks_after_post Demo.jwt_verify Demo.as_ana "u1" "x" b
           Demo.st0); reflexivity.
Defined.

Lemma register_then_status_witness :
  exists token,
    forall s,
      get_status Demo.jwt_verify (Request (Some ("Bearer " ++ token)) s)
        (store_of
           (register Demo.bcrypt_hash Demo.jwt_sign Demo.env0 Demo.anonymous
              (Some "Caio") (Some "caio@x.com") (Some "pw3") Demo.st0))
      = IsAuthenticated
          (Profile "u3" (Some "Caio") "caio@x.com" false None None
             (Some "#059669") None).
Proof.
  assert (H1 : "Caio" <> "") by discriminate.
  assert (H2 : "caio@x.com" <> "") by discriminate.
  assert (H3 : "pw3" <> "") by discriminate.
  destruct (register_then_status Demo.bcrypt_hash Demo.jwt_sign
              Demo.jwt_verify demo_jwt_round_trip demo_jwt_not_empty
              Demo.env0 Demo.anonymous "Caio" "caio@x.com" "pw3" Demo.st0
              H1 H2 H3 eq_refl eq_refl) as [token [_ [_ [_ H]]]].
  exists token. exact H.
Defined.

(** Ana ticks her first task. *)
Lemma toggle_agrees_witness :
  Permutation
    (Client.toggleTodo_state (Some "t1") (fetched "u1" Demo.st0))
    (fetched "u1"
       (store_of (put_task Demo.jwt_verify Demo.as_ana "t1" true Demo.st0))).
Proof.
  apply (toggle_agrees Demo.jwt_verify Demo.as_ana "u1" "t1" true Demo.st0).
  - reflexivity.
  - exact demo_task_ids_unique.
  - reflexivity.
  - reflexivity.
Defined.

Lemma delete_agrees_witness :
  Permutation
    (Client.deleteTodo_state (Some "t1") (fetched "u1" Demo.st0))
    (fetched "u1"
       (store_of (delete_task Demo.jwt_verify Demo.as_ana "t1" Demo.st0))).
Proof.
  apply (delete_agrees Demo.jwt_verify Demo.as_ana "u1" "t1" Demo.st0).
  - reflexivity.
  - reflexivity.
Defined.

(** A form without a date, reminder off, a contact left in the field. *)
Lemma addTodo_stored_witness :
  let f := Client.Form "t9" "water plants" "low" "" None "none" "1h"
             "ana@x.com" in
  tasks
    (store_of
       (post_tasks Demo.jwt_verify Demo.as_ana
          (scalar_body (Client.body_of_todo (Client.todo_of_form f)))
          Demo.st0))
  = [Demo.t1; Demo.t2; Demo.t3;
     Task.Row (Some "t9") (Some "u1") "water plants" 0 (Some "low") None
       None (Some "none") (Some "1h") (Some "")].
Proof.
  intros f.
  apply (addTodo_stored Demo.jwt_verify Demo.as_ana "u1" f Demo.st0);
    reflexivity.
Defined.

(** Ana's two todos and a done one, in the order of display. *)
Lemma sortedTodos_ordered_witness :
  let todos :=
    (Client.Todo (Some "a") "done" true (Some "high") None None None None None
     :: fetched "u1" Demo.st0)%list in
  Permutation (Client.sortedTodos todos) todos /\
  StronglySorted Client.shown_before (Client.sortedTodos todos).
Proof.
  intros todos. apply (sortedTodos_ordered todos).
  repeat constructor; discriminate.
Defined.


(** Bia sends the array ["x9", "u1"] for id and the empty array for text:
    the task is stored as Ana's, and Ana's list shows it. *)
Lemma post_tasks_owner_chosen_witness :
  let b := RawBody (JS.Array [Some "x9"; Some "u1"]) (JS.Array [])
             (JS.Scalar (Some "low")) (JS.Scalar None) (JS.Scalar None)
             (JS.Scalar None) (JS.Scalar None) (JS.Scalar None) in
  let r := Task.Row (Some "x9") (Some "u1") "u2" 0 (Some "low") None None
             (Some "none") (Some "1h") (Some "") in
  post_tasks Demo.jwt_verify Demo.as_bia b Demo.st0
  = Reply (Responded 200 SuccessBody)
      (Store [Demo.ana; Demo.bia] [Demo.t1; Demo.t2; Demo.t3; r]) None /\
  exists ts,
    outcome_of
      (get_tasks Demo.jwt_verify Demo.as_ana
         (store_of (post_tasks Demo.jwt_verify Demo.as_bia b Demo.st0)))
    = Responded 200 (TasksBody ts) /\
    In (Task.to_json r) ts.
Proof.
  intros b r.
  destruct (post_tasks_owner_chosen Demo.jwt_verify Demo.as_bia Demo.as_ana
              "u2" "x9" (Some "u1") (Some "low") None None None None None
              Demo.st0 eq_refl eq_refl eq_refl) as [H1 H2].
  split; [exact H1|].
  exact (H2 "u1" eq_refl eq_refl).
Defined.

(** With [null] for the second value the task is stored without an
    owner: nobody's list shows it, and nobody's delete removes it. *)
Example post_tasks_no_owner :
  let b := RawBody (JS.Array [Some "x9"; None]) (JS.Array [])
             (JS.Scalar None) (JS.Scalar None) (JS.Scalar None)
             (JS.Scalar None) (JS.Scalar None) (JS.Scalar None) in
  let r := Task.Row (Some "x9") None "u2" 0 None None None (Some "none")
             (Some "1h") (Some "") in
  let st := store_of (post_tasks Demo.jwt_verify Demo.as_bia b Demo.st0) in
  tasks st = [Demo.t1; Demo.t2; Demo.t3; r] /\
  tasks_of "u1" st = [Demo.t1; Demo.t3] /\
  tasks_of "u2" st = [Demo.t2] /\
  store_of (delete_task Demo.jwt_verify Demo.as_bia "x9" st) = st.
Proof. repeat split. Qed.

(** An array in another place changes the number of values: the INSERT
    is refused before it runs, and the error leaves the handler. *)
Example post_tasks_too_many :
  post_tasks Demo.jwt_verify Demo.as_bia
    (RawBody (JS.Scalar (Some "x9")) (JS.Scalar (Some "y"))
       (JS.Array [Some "low"; Some "high"]) (JS.Scalar None) (JS.Scalar None)
       (JS.Scalar None) (JS.Scalar None) (JS.Scalar None))
    Demo.st0
  = Reply (Uncaught (Error "Too many parameter values were provided"))
      Demo.st0 None.
Proof. reflexivity. Qed.

(** A task stored without an id comes to the client with [id: null].
    [toggleTodo(null)] flips it in the client's list, while the request goes
    to [/api/tasks/null] and changes no row; [deleteTodo(null)] drops it from
    the client's list and the server keeps it. *)
Example null_id_parts :
  let r := Task.Row None (Some "u1") "no id" 0 (Some "low") None None
             (Some "none") (Some "1h") (Some "") in
  let st := Store [Demo.ana; Demo.bia] [r] in
  Client.toggleTodo_completed None (fetched "u1" st) = Some true /\
  map Client.completed (Client.toggleTodo_state None (fetched "u1" st))
  = [true] /\
  map Client.completed
    (fetched "u1"
       (store_of
          (put_task Demo.jwt_verify Demo.as_ana (Client.param_of None) true
             st)))
  = [false] /\
  Client.deleteTodo_state None (fetched "u1" st) = [] /\
  store_of (delete_task Demo.jwt_verify Demo.as_ana (Client.param_of None) st)
  = st.
Proof. repeat split. Qed.

(** Bia pays and brands, Ana tries to brand: Ana's row stays. *)
Lemma row_kept_without_payment_witness :
  select_user_by_id "u1"
    (serve_all Demo.bcrypt_hash Demo.bcrypt_compare Demo.jwt_sign
       Demo.jwt_verify
       [(Demo.as_bia, ConfirmPayment);
        (Demo.as_bia, PutBranding (BrandingBody (Some "B") None None None));
        (Demo.as_ana, PutBranding (BrandingBody (Some "A") None None None))]
       Demo.st0)
  = Some Demo.ana.
Proof.
  apply (row_kept_without_payment Demo.bcrypt_hash Demo.bcrypt_compare
           Demo.jwt_sign Demo.jwt_verify
           [(Demo.as_bia, ConfirmPayment);
            (Demo.as_bia,
             PutBranding (BrandingBody (Some "B") None None None));
            (Demo.as_ana,
             PutBranding (BrandingBody (Some "A") None None None))]
           Demo.st0 "u1" Demo.ana).
  - reflexivity.
  - reflexivity.
  - repeat constructor; unfold pays; simpl; intros [H1 H2]; discriminate.
Defined.

(** The two open todos of Ana with priority "high" or "medium", one each. *)
Lemma sortedTodos_stable_witness :
  filter (Client.in_group false 0)
    (Client.sortedTodos (fetched "u1" Demo.st0))
  = filter (Client.in_group false 0) (fetched "u1" Demo.st0).
Proof.
  apply (sortedTodos_stable false 0 (fetched "u1" Demo.st0)).
  repeat constructor; discriminate.
Defined.
